(** * Managed-position lifecycle and monitoring engine

    A shallow embedding of [lib/services/positions.ts]
    ([PositionManagerService]), of the HTTP routes in front of it
    ([api/positions/managed], [api/positions/managed/[id]] and
    [api/positions/monitor]) and of [lib/utils/retry.ts].

    Modelling choices.
    - Numbers.  A JavaScript [number] is an IEEE-754 double.  The threshold
      formulas of [calculatePrices] are embedded twice: over the doubles
      themselves ([Double.calculatePrices], on [PrimFloat.float], the same
      binary64 arithmetic) and over exact rationals ([calculatePrices], on
      [Q]).  What is said about the size or the order of computed
      thresholds is said of the doubles, or is said to hold in exact
      arithmetic.  The control flow of the service is embedded over [Q]:
      there the properties are about which branch runs, what is written and
      what is called, and the numbers stored are given as the expressions
      the code evaluates.  [NaN] and the infinities are outside the [Q]
      embedding: the one division of the service, by the entry price in
      [updateManagedPosition], is meaningful only for a row whose entry
      price is not 0, and a property that speaks of its result says so.
      A value of type [number | null | undefined] is an [option Q], and
      JavaScript truthiness of such a value is [truthy].
    - Strings are sequences of 8-bit characters.  Ticker symbols are ASCII;
      for such strings the length in characters is the length in UTF-16
      code units and [toUpperCase] changes the letters a to z only.
    - The position table is in memory and always answers: a query that
      rejects because the database cannot be reached is outside the
      embedding, and so is a service that cannot be constructed, except in
      the monitoring route, which is given the constructor.
    - [async] methods are computations in a state-and-exception monad [M]
      over a [World]: the position table, the clock, the trace of calls
      made to the brokerage and to the market-data provider, and the log.
      A rejected promise is [Throw]; effects performed before a throw stay.
    - The brokerage client and the market-data client are fields of the
      service, as in the class; what they answer may depend on the time of
      the call. *)

From Stdlib Require Import QArith Lqa Lia Bool PeanoNat List String Ascii Permutation.
From Stdlib Require Import Sorted.
From Stdlib Require Import PrimFloat.
From Stdlib Require FloatOps SpecFloat.
From Stdlib Require Import DecimalString.
Import ListNotations.

Local Open Scope string_scope.
Local Open Scope Q_scope.

(** ** Numbers *)

(** [a < b] on numbers, as a boolean. *)
Definition Qlt_bool (a b : Q) : bool := negb (Qle_bool b a).

(** Truthiness of a [number | undefined]: [undefined] and [0] are falsy. *)
Definition truthy (o : option Q) : bool :=
  match o with
  | Some q => negb (Qeq_bool q 0)
  | None => false
  end.

(** [a || b] on two values of type [number | undefined]. *)
Definition or_else (a b : option Q) : option Q :=
  if truthy a then a else b.

(** [a || d] where [d] is a number: the result is a number. *)
Definition or_default (a : option Q) (d : Q) : Q :=
  match a with
  | Some q => if Qeq_bool q 0 then d else q
  | None => d
  end.

(** ** Data model *)

Inductive ManagedPositionStatus : Type :=
| active
| monitoring
| stop_loss_triggered
| take_profit_triggered
| closed
| error.

Definition status_eqb (a b : ManagedPositionStatus) : bool :=
  match a, b with
  | active, active | monitoring, monitoring
  | stop_loss_triggered, stop_loss_triggered
  | take_profit_triggered, take_profit_triggered
  | closed, closed | error, error => true
  | _, _ => false
  end.

(** Dates are clock readings. *)
Definition Date : Set := nat.
Bind Scope nat_scope with Date.

Record ManagedPosition : Type := {
  id : string;
  symbol : string;
  qty : Q;
  entry_price : Q;
  entry_order_id : option string;
  stop_loss_pct : Q;
  take_profit_pct : Q;
  stop_loss_price : Q;
  take_profit_price : Q;
  trailing_stop : bool;
  status : ManagedPositionStatus;
  current_price : option Q;
  unrealized_pl : option Q;
  unrealized_plpc : option Q;
  closed_price : option Q;
  closed_reason : option string;
  exit_order_id : option string;
  created_at : Date;
  updated_at : Date;
  closed_at : option Date
}.

Inductive OrderSide : Type := buy | sell.

(** [CreateManagedPositionParams]; [trailingStop] is optional. *)
Module Params.
Record t : Type := {
  symbol : string;
  qty : Q;
  side : OrderSide;
  stopLossPct : Q;
  takeProfitPct : Q;
  trailingStop : option bool
}.
End Params.
Definition CreateManagedPositionParams : Type := Params.t.

(** A JavaScript [Error]. *)
Record Error : Type := { message : string }.

(** *** What the collaborators exchange *)

(** The request [placeOrder] receives; the service always sends a market
    order with time in force [day]. *)
Record OrderRequest : Type := {
  req_symbol : string;
  req_qty : Q;
  req_side : OrderSide
}.

(** An [Order] as the service reads it: its id and its fill price.
    [filled_avg_price] is a decimal string in the API; it is kept here as
    the number [parseFloat] gives, [None] when the field is absent or
    empty (the falsy cases of the test [if (order.filled_avg_price)]). *)
Record Order : Type := {
  order_id : string;
  filled_avg_price : option Q
}.

Record Trade : Type := { p : Q }.
Record Quote : Type := { ap : Q }.

Record Snapshot : Type := {
  latestTrade : option Trade;
  latestQuote : option Quote
}.

(** ** The world the service runs in *)

Inductive Outcome (A : Type) : Type :=
| Ok (a : A)
| Throw (e : Error).
Arguments Ok {A} a.
Arguments Throw {A} e.

Inductive ExternalCall : Type :=
| PlaceOrder (r : OrderRequest)
| ClosePosition (sym : string)
| GetSnapshot (sym : string).

Inductive Level : Type := Info | Warn | Err.

Record LogEntry : Type := {
  level : Level;
  text : string;
  cause : option Error
}.

Record World : Type := {
  db : list ManagedPosition;   (* table ManagedPosition, newest row first *)
  next_id : nat;                (* source of fresh row ids *)
  now : Date;                   (* the clock *)
  calls : list ExternalCall;    (* calls sent out, latest first *)
  logs : list LogEntry          (* log lines, latest first *)
}.

(** The elementary changes of the world. *)
Definition add_log (e : LogEntry) (w : World) : World :=
  {| db := db w; next_id := next_id w; now := now w; calls := calls w;
     logs := e :: logs w |}.

Definition record_call (c : ExternalCall) (w : World) : World :=
  {| db := db w; next_id := next_id w; now := S (now w);
     calls := c :: calls w; logs := logs w |}.

Definition set_db (rows : list ManagedPosition) (w : World) : World :=
  {| db := rows; next_id := next_id w; now := now w; calls := calls w;
     logs := logs w |}.

Definition insert_row (r : ManagedPosition) (w : World) : World :=
  {| db := r :: db w; next_id := S (next_id w); now := now w;
     calls := calls w; logs := logs w |}.

(** ** Computations *)

Definition M (A : Type) : Type := World -> Outcome A * World.

Definition ret {A} (a : A) : M A := fun w => (Ok a, w).

Definition bind {A B} (m : M A) (k : A -> M B) : M B :=
  fun w =>
    match m w with
    | (Ok a, w') => k a w'
    | (Throw e, w') => (Throw e, w')
    end.

Definition throw {A} (e : Error) : M A := fun w => (Throw e, w).

(** [try { m } catch (e) { h e }] *)
Definition try_catch {A} (m : M A) (h : Error -> M A) : M A :=
  fun w =>
    match m w with
    | (Ok a, w') => (Ok a, w')
    | (Throw e, w') => h e w'
    end.

Notation "x <- m ;; k" := (bind m (fun x => k))
  (at level 61, m at next level, right associativity).
Notation "m ;;; k" := (bind m (fun _ => k))
  (at level 61, right associativity).

(** *** Logger *)

Definition logger_write (l : Level) (msg : string) (c : option Error) : M unit :=
  fun w => (Ok tt, add_log {| level := l; text := msg; cause := c |} w).

Definition logger_info (msg : string) : M unit := logger_write Info msg None.
Definition logger_warn (msg : string) : M unit := logger_write Warn msg None.
Definition logger_error (msg : string) (e : Error) : M unit :=
  logger_write Err msg (Some e).

(** *** Calls to the outside *)

(** An outside call is recorded in the trace, takes one tick of the clock,
    and answers what the collaborator answers at the time of the call. *)
Definition external {A} (c : ExternalCall) (answer : Date -> Outcome A) : M A :=
  fun w => (answer (now w), record_call c w).

Record AlpacaTradingService : Type := {
  placeOrder : Date -> OrderRequest -> Outcome Order;
  closePosition : Date -> string -> Outcome Order
}.

Record AlpacaDataService : Type := {
  getSnapshot : Date -> string -> Outcome Snapshot
}.

Record PositionManagerService : Type := {
  tradingService : AlpacaTradingService;
  dataService : AlpacaDataService
}.

Definition call_placeOrder (this : PositionManagerService) (r : OrderRequest)
  : M Order :=
  external (PlaceOrder r) (fun t => placeOrder (tradingService this) t r).

Definition call_closePosition (this : PositionManagerService) (sym : string)
  : M Order :=
  external (ClosePosition sym) (fun t => closePosition (tradingService this) t sym).

Definition call_getSnapshot (this : PositionManagerService) (sym : string)
  : M Snapshot :=
  external (GetSnapshot sym) (fun t => getSnapshot (dataService this) t sym).

(** ** The position table (the [prisma.managedPosition] client)

    The table is reliable: an operation fails only where Prisma itself
    raises on the data, that is [update] on an id that has no row.  A
    query that rejects because the database cannot be reached is not
    represented: what is proved of a method that reads or writes the table
    is proved of the runs in which the table answers. *)

(** The [data] object of [create]. *)
Module Data.
Record t : Type := {
  symbol : string;
  qty : Q;
  entry_price : Q;
  entry_order_id : option string;
  stop_loss_pct : Q;
  take_profit_pct : Q;
  stop_loss_price : Q;
  take_profit_price : Q;
  trailing_stop : bool;
  status : ManagedPositionStatus;
  current_price : option Q;
  unrealized_pl : option Q;
  unrealized_plpc : option Q
}.
End Data.

(** Row ids ([@default(cuid())]): a fresh string per row. *)
Definition fresh_id (n : nat) : string :=
  "mp_" ++ NilEmpty.string_of_uint (Nat.to_uint n).

(** The row [create] inserts: the columns left out of [data] are null,
    [created_at] defaults to the current time. *)
Definition new_row (i : string) (t : Date) (d : Data.t) : ManagedPosition :=
  {| id := i;
     symbol := Data.symbol d;
     qty := Data.qty d;
     entry_price := Data.entry_price d;
     entry_order_id := Data.entry_order_id d;
     stop_loss_pct := Data.stop_loss_pct d;
     take_profit_pct := Data.take_profit_pct d;
     stop_loss_price := Data.stop_loss_price d;
     take_profit_price := Data.take_profit_price d;
     trailing_stop := Data.trailing_stop d;
     status := Data.status d;
     current_price := Data.current_price d;
     unrealized_pl := Data.unrealized_pl d;
     unrealized_plpc := Data.unrealized_plpc d;
     closed_price := None;
     closed_reason := None;
     exit_order_id := None;
     created_at := t;
     updated_at := t;
     closed_at := None |}.

Definition prisma_create (d : Data.t) : M ManagedPosition :=
  fun w =>
    let row := new_row (fresh_id (next_id w)) (now w) d in
    (Ok row, insert_row row w).

(** The [data] object of [update]: the columns it names, [None] for a
    column it leaves alone. *)
Record Patch : Type := {
  set_status : option ManagedPositionStatus;
  set_stop_loss_price : option Q;
  set_current_price : option Q;
  set_unrealized_pl : option Q;
  set_unrealized_plpc : option Q;
  set_closed_price : option Q;
  set_closed_reason : option string;
  set_exit_order_id : option string;
  set_closed_at : option Date
}.

Definition keep {A} (new : option A) (old : A) : A :=
  match new with Some a => a | None => old end.

Definition overwrite {A} (new : option A) (old : option A) : option A :=
  match new with Some a => Some a | None => old end.

(** The row after an update at time [t]; [updated_at] is an [@updatedAt]
    column, set by every update (the one [data] object that names it,
    in [updateManagedPosition], gives it the current time too). *)
Definition apply_patch (d : Patch) (t : Date) (r : ManagedPosition)
  : ManagedPosition :=
  {| id := id r;
     symbol := symbol r;
     qty := qty r;
     entry_price := entry_price r;
     entry_order_id := entry_order_id r;
     stop_loss_pct := stop_loss_pct r;
     take_profit_pct := take_profit_pct r;
     stop_loss_price := keep (set_stop_loss_price d) (stop_loss_price r);
     take_profit_price := take_profit_price r;
     trailing_stop := trailing_stop r;
     status := keep (set_status d) (status r);
     current_price := overwrite (set_current_price d) (current_price r);
     unrealized_pl := overwrite (set_unrealized_pl d) (unrealized_pl r);
     unrealized_plpc := overwrite (set_unrealized_plpc d) (unrealized_plpc r);
     closed_price := overwrite (set_closed_price d) (closed_price r);
     closed_reason := overwrite (set_closed_reason d) (closed_reason r);
     exit_order_id := overwrite (set_exit_order_id d) (exit_order_id r);
     created_at := created_at r;
     updated_at := t;
     closed_at := overwrite (set_closed_at d) (closed_at r) |}.

Definition find_row (i : string) (rows : list ManagedPosition)
  : option ManagedPosition :=
  find (fun r => String.eqb (id r) i) rows.

Definition update_rows (i : string) (d : Patch) (t : Date)
  (rows : list ManagedPosition) : list ManagedPosition :=
  map (fun r => if String.eqb (id r) i then apply_patch d t r else r) rows.

Definition prisma_findUnique (i : string) : M (option ManagedPosition) :=
  fun w => (Ok (find_row i (db w)), w).

Definition prisma_update (i : string) (d : Patch) : M ManagedPosition :=
  fun w =>
    match find_row i (db w) with
    | Some r =>
        (Ok (apply_patch d (now w) r),
         set_db (update_rows i d (now w) (db w)) w)
    | None => (Throw {| message := "Record to update not found." |}, w)
    end.

(** [orderBy: { created_at: 'desc' }], as a stable insertion sort. *)
Fixpoint insert_desc (r : ManagedPosition) (l : list ManagedPosition)
  : list ManagedPosition :=
  match l with
  | [] => [r]
  | x :: l' =>
      if Nat.leb (created_at x) (created_at r) then r :: l
      else x :: insert_desc r l'
  end.

Fixpoint sort_desc (l : list ManagedPosition) : list ManagedPosition :=
  match l with
  | [] => []
  | r :: l' => insert_desc r (sort_desc l')
  end.

Definition prisma_findMany (where_ : ManagedPosition -> bool)
  : M (list ManagedPosition) :=
  fun w => (Ok (sort_desc (filter where_ (db w))), w).

(** ** [PositionManagerService] *)

Record Prices : Type := {
  stopLossPrice : Q;
  takeProfitPrice : Q
}.

(** [calculatePrices]: stop-loss and take-profit prices from the entry
    price and the two percentages; [buy] opens a long position, [sell] a
    short one.  This is the reading of the formulas in exact arithmetic,
    the one [createManagedPosition] below stores; [Double.calculatePrices]
    is the same function on doubles. *)
Definition calculatePrices (entryPrice stopLossPct takeProfitPct : Q)
  (side : OrderSide) : Prices :=
  match side with
  | buy =>
      {| stopLossPrice := entryPrice * (1 - stopLossPct / 100);
         takeProfitPrice := entryPrice * (1 + takeProfitPct / 100) |}
  | sell =>
      {| stopLossPrice := entryPrice * (1 + stopLossPct / 100);
         takeProfitPrice := entryPrice * (1 - takeProfitPct / 100) |}
  end.

(** *** [calculatePrices] on doubles *)

Module Double.

Local Open Scope float_scope.

Record Prices : Type := {
  stopLossPrice : float;
  takeProfitPrice : float
}.

(** [calculatePrices], every operation being the IEEE-754 binary64
    operation, rounded to nearest, that JavaScript performs. *)
Definition calculatePrices (entryPrice stopLossPct takeProfitPct : float)
  (side : OrderSide) : Prices :=
  match side with
  | buy =>
      {| stopLossPrice := entryPrice * (1 - stopLossPct / 100);
         takeProfitPrice := entryPrice * (1 + takeProfitPct / 100) |}
  | sell =>
      {| stopLossPrice := entryPrice * (1 + stopLossPct / 100);
         takeProfitPrice := entryPrice * (1 - takeProfitPct / 100) |}
  end.

(** The rational number a double stands for; [None] for [NaN] and the
    infinities. *)
Definition value (x : float) : option Q :=
  match FloatOps.Prim2SF x with
  | SpecFloat.S754_zero _ => Some 0%Q
  | SpecFloat.S754_finite s m e =>
      Some (Qred (inject_Z (if s then Z.neg m else Z.pos m) * Qpower 2 e))
  | _ => None
  end.

(** The double of a natural number (exact below 2^53). *)
Fixpoint whole (n : nat) : float :=
  match n with
  | O => 0
  | S k => whole k + 1
  end.

(** The literal [1e-15], read as JavaScript reads it: the nearest double. *)
#[warnings="-inexact-float"] Definition tiny : float := 1e-15.

(** Whether the thresholds computed from [entryPrice] with [pct] as both
    percentages are strictly on their side of the entry price, for a long
    and for a short position; and whether the two tests of
    [monitorPosition], current <= stopLoss and current >= takeProfit, both
    succeed for the short position at a current price equal to the entry
    price. *)
Definition apart (entryPrice pct : float) : bool :=
  let long := calculatePrices entryPrice pct pct buy in
  let short := calculatePrices entryPrice pct pct sell in
  (stopLossPrice long <? entryPrice) && (entryPrice <? takeProfitPrice long)
  && (takeProfitPrice short <? entryPrice)
  && (entryPrice <? stopLossPrice short)
  && (entryPrice <=? stopLossPrice short)
  && (takeProfitPrice short <=? entryPrice).

(** [apart] for every whole entry price from 1 to [prices] and every whole
    percentage from 1 to [pcts]; also checks that [whole] is exact there. *)
Definition apart_upto (prices pcts : nat) : bool :=
  let percentages := map whole (seq 1 pcts) in
  forallb
    (fun n =>
       let entryPrice := whole n in
       match value entryPrice with
       | Some v => Z.eqb (Qnum v) (Z.of_nat n) && Pos.eqb (Qden v) 1
       | None => false
       end
       && forallb (apart entryPrice) percentages)
    (seq 1 prices).

End Double.

(** [createManagedPosition] *)
Definition createManagedPosition (this : PositionManagerService)
  (params : CreateManagedPositionParams) : M ManagedPosition :=
  let symbol := Params.symbol params in
  let qty := Params.qty params in
  let side := Params.side params in
  let stopLossPct := Params.stopLossPct params in
  let takeProfitPct := Params.takeProfitPct params in
  let trailingStop :=
    match Params.trailingStop params with Some b => b | None => false end in
  logger_info "Creating managed position" ;;;
  try_catch
    (order <- call_placeOrder this
                {| req_symbol := symbol; req_qty := qty; req_side := side |} ;;
     logger_info "Entry order placed" ;;;
     entryPrice <-
       match filled_avg_price order with
       | Some fill => ret fill
       | None =>
           snapshot <- call_getSnapshot this symbol ;;
           ret (or_default (option_map p (latestTrade snapshot)) 0)
       end ;;
     let prices := calculatePrices entryPrice stopLossPct takeProfitPct side in
     managedPosition <-
       prisma_create
         {| Data.symbol := symbol;
            Data.qty := qty;
            Data.entry_price := entryPrice;
            Data.entry_order_id := Some (order_id order);
            Data.stop_loss_pct := stopLossPct;
            Data.take_profit_pct := takeProfitPct;
            Data.stop_loss_price := stopLossPrice prices;
            Data.take_profit_price := takeProfitPrice prices;
            Data.trailing_stop := trailingStop;
            Data.status := active;
            Data.current_price := Some entryPrice;
            Data.unrealized_pl := Some 0;
            Data.unrealized_plpc := Some 0 |} ;;
     logger_info "Managed position created" ;;;
     ret managedPosition)
    (fun e =>
       logger_error "Failed to create managed position" e ;;;
       throw e).

Definition is_active_or_monitoring (r : ManagedPosition) : bool :=
  status_eqb (status r) active || status_eqb (status r) monitoring.

(** [getActiveManagedPositions] *)
Definition getActiveManagedPositions : M (list ManagedPosition) :=
  prisma_findMany is_active_or_monitoring.

(** [getManagedPosition] *)
Definition getManagedPosition (i : string) : M (option ManagedPosition) :=
  prisma_findUnique i.

Definition not_found (i : string) : Error :=
  {| message := "Managed position " ++ i ++ " not found" |}.

(** The [data] objects of the four updates the service makes. *)
Definition price_data (currentPrice unrealizedPl unrealizedPlpc : Q) : Patch :=
  {| set_status := None; set_stop_loss_price := None;
     set_current_price := Some currentPrice;
     set_unrealized_pl := Some unrealizedPl;
     set_unrealized_plpc := Some unrealizedPlpc;
     set_closed_price := None; set_closed_reason := None;
     set_exit_order_id := None; set_closed_at := None |}.

Definition trailing_data (newStopLossPrice : Q) : Patch :=
  {| set_status := None;
     set_stop_loss_price := Some newStopLossPrice;
     set_current_price := None; set_unrealized_pl := None;
     set_unrealized_plpc := None; set_closed_price := None;
     set_closed_reason := None; set_exit_order_id := None;
     set_closed_at := None |}.

Definition closed_data (finalClosedPrice : Q) (reason exitOrder : string)
  (today : Date) : Patch :=
  {| set_status := Some closed;
     set_stop_loss_price := None;
     set_current_price := None; set_unrealized_pl := None;
     set_unrealized_plpc := None;
     set_closed_price := Some finalClosedPrice;
     set_closed_reason := Some reason;
     set_exit_order_id := Some exitOrder;
     set_closed_at := Some today |}.

Definition error_data (e : Error) : Patch :=
  {| set_status := Some error;
     set_stop_loss_price := None;
     set_current_price := None; set_unrealized_pl := None;
     set_unrealized_plpc := None; set_closed_price := None;
     set_closed_reason := Some ("Error: " ++ message e);
     set_exit_order_id := None; set_closed_at := None |}.

(** [updateManagedPosition].  The percentage divides by the entry price:
    for a row whose entry price is 0 the code computes an infinity or
    [NaN], which [Q] does not have, and what is stored then is not
    described by this definition. *)
Definition updateManagedPosition (i : string) (currentPrice : Q)
  : M ManagedPosition :=
  found <- getManagedPosition i ;;
  match found with
  | None => throw (not_found i)
  | Some position =>
      let unrealizedPl := (currentPrice - entry_price position) * qty position in
      let unrealizedPlpc :=
        ((currentPrice - entry_price position) / entry_price position) * 100 in
      prisma_update i (price_data currentPrice unrealizedPl unrealizedPlpc)
  end.

(** [updateTrailingStop] *)
Definition updateTrailingStop (i : string) (currentPrice : Q) : M unit :=
  found <- getManagedPosition i ;;
  match found with
  | None => ret tt
  | Some position =>
      let newStopLossPrice := currentPrice * (1 - stop_loss_pct position / 100) in
      if Qlt_bool (stop_loss_price position) newStopLossPrice then
        prisma_update i (trailing_data newStopLossPrice) ;;;
        logger_info "Trailing stop updated"
      else ret tt
  end.

(** The stop-loss price [updateTrailingStop] proposes at a price. *)
Definition trailing_candidate (position : ManagedPosition) (currentPrice : Q) : Q :=
  currentPrice * (1 - stop_loss_pct position / 100).

(** A sequence of trailing-stop adjustments of one position, one call
    per observed price. *)
Fixpoint adjust_calls (i : string) (prices : list Q) : M unit :=
  match prices with
  | [] => ret tt
  | price :: rest => updateTrailingStop i price ;;; adjust_calls i rest
  end.

(** The current time, for [new Date()]. *)
Definition new_Date : M Date := fun w => (Ok (now w), w).

(** The closed price [closeManagedPosition] records: the price passed in,
    else the fill price of the closing order, else the last stored current
    price, else the entry price. *)
Definition final_closed_price (closedPrice : option Q) (closeOrder : Order)
  (position : ManagedPosition) : Q :=
  or_default closedPrice
    match filled_avg_price closeOrder with
    | Some fill => fill
    | None => or_default (current_price position) (entry_price position)
    end.

(** [closeManagedPosition] *)
Definition closeManagedPosition (this : PositionManagerService) (i : string)
  (reason : string) (closedPrice : option Q) : M ManagedPosition :=
  found <- getManagedPosition i ;;
  match found with
  | None => throw (not_found i)
  | Some position =>
      logger_info "Closing managed position" ;;;
      try_catch
        (closeOrder <- call_closePosition this (symbol position) ;;
         let finalClosedPrice :=
           final_closed_price closedPrice closeOrder position in
         today <- new_Date ;;
         updatedPosition <-
           prisma_update i
             (closed_data finalClosedPrice reason (order_id closeOrder) today) ;;
         logger_info "Managed position closed successfully" ;;;
         ret updatedPosition)
        (fun e =>
           logger_error "Failed to close managed position" e ;;;
           prisma_update i (error_data e) ;;;
           throw e)
  end.

(** The current price [monitorPosition] reads off a snapshot: the latest
    trade price, else the latest ask price. *)
Definition snapshot_price (snapshot : Snapshot) : option Q :=
  or_else (option_map p (latestTrade snapshot))
          (option_map ap (latestQuote snapshot)).

(** What [monitorPosition] resolves to. *)
Record MonitorResult : Type := {
  triggered : bool;
  reason : option string;
  action : option string
}.

Definition not_triggered : MonitorResult :=
  {| triggered := false; reason := None; action := None |}.

Definition stop_loss_result : MonitorResult :=
  {| triggered := true; reason := Some "stop_loss"; action := Some "closed" |}.

Definition take_profit_result : MonitorResult :=
  {| triggered := true; reason := Some "take_profit"; action := Some "closed" |}.

(** [monitorPosition] *)
Definition monitorPosition (this : PositionManagerService) (i : string)
  : M MonitorResult :=
  found <- getManagedPosition i ;;
  match found with
  | None => throw (not_found i)
  | Some position =>
      if negb (status_eqb (status position) active)
         && negb (status_eqb (status position) monitoring)
      then ret not_triggered
      else
        try_catch
          (snapshot <- call_getSnapshot this (symbol position) ;;
           let currentPrice := snapshot_price snapshot in
           match currentPrice with
           | Some price =>
               if negb (truthy currentPrice) then
                 logger_warn "No current price available for position" ;;;
                 ret not_triggered
               else
                 updateManagedPosition i price ;;;
                 let stopLossTriggered :=
                   Qle_bool price (stop_loss_price position) in
                 let takeProfitTriggered :=
                   Qle_bool (take_profit_price position) price in
                 if stopLossTriggered then
                   logger_warn "Stop-loss triggered" ;;;
                   closeManagedPosition this i "stop_loss_triggered" (Some price) ;;;
                   ret stop_loss_result
                 else if takeProfitTriggered then
                   logger_info "Take-profit triggered" ;;;
                   closeManagedPosition this i "take_profit_triggered" (Some price) ;;;
                   ret take_profit_result
                 else
                   (if trailing_stop position
                    then updateTrailingStop i price
                    else ret tt) ;;;
                   ret not_triggered
           | None =>
               logger_warn "No current price available for position" ;;;
               ret not_triggered
           end)
          (fun e =>
             logger_error "Failed to monitor position" e ;;;
             throw e)
  end.

(** What [monitorAllPositions] resolves to. *)
Record CycleResult : Type := {
  total : nat;
  triggered_count : nat;
  errors : nat
}.

(** The body of the [for] loop of [monitorAllPositions], with its two
    counters. *)
Fixpoint monitor_loop (this : PositionManagerService)
  (positions : list ManagedPosition) (nTriggered nErrors : nat)
  : M (nat * nat) :=
  match positions with
  | [] => ret (nTriggered, nErrors)
  | position :: rest =>
      counters <-
        try_catch
          (result <- monitorPosition this (id position) ;;
           if triggered result
           then ret (S nTriggered, nErrors)
           else ret (nTriggered, nErrors))
          (fun e =>
             logger_error "Error monitoring position" e ;;;
             ret (nTriggered, S nErrors)) ;;
      monitor_loop this rest (fst counters) (snd counters)
  end.

(** [monitorAllPositions] *)
Definition monitorAllPositions (this : PositionManagerService) : M CycleResult :=
  logger_info "Starting position monitoring cycle" ;;;
  activePositions <- getActiveManagedPositions ;;
  counters <- monitor_loop this activePositions 0%nat 0%nat ;;
  logger_info "Position monitoring cycle completed" ;;;
  ret {| total := List.length activePositions;
         triggered_count := fst counters;
         errors := snd counters |}.

(** ** The HTTP routes in front of the service *)

(** The JSON body of [POST /api/positions/managed], with every field
    present and of the JSON type the schema asks for. *)
Module Body.
Record t : Type := {
  symbol : string;
  qty : Q;
  side : string;
  stopLossPct : Q;
  takeProfitPct : Q;
  trailingStop : option bool
}.
End Body.

(** [String.prototype.toUpperCase], on ASCII strings. *)
Definition toUpperCase_ascii (c : ascii) : ascii :=
  let n := nat_of_ascii c in
  if (Nat.leb 97 n && Nat.leb n 122)%bool then ascii_of_nat (n - 32) else c.

Fixpoint toUpperCase (s : string) : string :=
  match s with
  | EmptyString => EmptyString
  | String c s' => String (toUpperCase_ascii c) (toUpperCase s')
  end.

(** [z.number().positive()] *)
Definition z_positive (x : Q) : bool := Qlt_bool 0 x.

(** [z.number().positive().max(100)] *)
Definition z_positive_max100 (x : Q) : bool := Qlt_bool 0 x && Qle_bool x 100.

(** [z.enum(['buy', 'sell'])] *)
Definition z_side (s : string) : option OrderSide :=
  if String.eqb s "buy" then Some buy
  else if String.eqb s "sell" then Some sell
  else None.

(** [createManagedPositionSchema.parse]: the validated data, or [None]
    where [parse] throws a [ZodError].  The length of the symbol is counted
    in characters, which for an ASCII symbol is what [min(1).max(10)]
    counts. *)
Definition createManagedPositionSchema (body : Body.t)
  : option CreateManagedPositionParams :=
  let len := String.length (Body.symbol body) in
  match z_side (Body.side body) with
  | Some side =>
      if (Nat.leb 1 len && Nat.leb len 10
          && z_positive (Body.qty body)
          && z_positive_max100 (Body.stopLossPct body)
          && z_positive_max100 (Body.takeProfitPct body))%bool
      then
        Some {| Params.symbol := toUpperCase (Body.symbol body);
                Params.qty := Body.qty body;
                Params.side := side;
                Params.stopLossPct := Body.stopLossPct body;
                Params.takeProfitPct := Body.takeProfitPct body;
                Params.trailingStop :=
                  Some match Body.trailingStop body with
                       | Some b => b
                       | None => false
                       end |}
      else None
  | None => None
  end.

Record Response : Type := {
  http_status : nat;
  success : bool;
  data : option ManagedPosition;
  error_text : option string
}.

(** [(error as Error).message || fallback] *)
Definition message_or (e : Error) (fallback : string) : string :=
  if String.eqb (message e) "" then fallback else message e.

(** [POST /api/positions/managed] *)
Definition POST (service : PositionManagerService) (body : Body.t) : M Response :=
  match createManagedPositionSchema body with
  | None =>
      ret {| http_status := 400; success := false; data := None;
             error_text := Some "Validation error" |}
  | Some validatedData =>
      try_catch
        (logger_info "Creating managed position via API" ;;;
         managedPosition <- createManagedPosition service validatedData ;;
         ret {| http_status := 201; success := true;
                data := Some managedPosition; error_text := None |})
        (fun e =>
           logger_error "Failed to create managed position via API" e ;;;
           ret {| http_status := 500; success := false; data := None;
                  error_text :=
                    Some (message_or e "Failed to create managed position") |})
  end.

(** [DELETE /api/positions/managed/[id]]; [reasonParam] is the [reason]
    query parameter. *)
Definition DELETE (service : PositionManagerService) (i : string)
  (reasonParam : option string) : M Response :=
  let reason :=
    match reasonParam with
    | Some r => if String.eqb r "" then "manual_close" else r
    | None => "manual_close"
    end in
  try_catch
    (logger_info "Closing managed position via API" ;;;
     found <- getManagedPosition i ;;
     match found with
     | None =>
         ret {| http_status := 404; success := false; data := None;
                error_text := Some "Managed position not found" |}
     | Some position =>
         if status_eqb (status position) closed then
           ret {| http_status := 400; success := false; data := None;
                  error_text := Some "Position is already closed" |}
         else
           closedPosition <- closeManagedPosition service i reason None ;;
           ret {| http_status := 200; success := true;
                  data := Some closedPosition; error_text := None |}
     end)
    (fun e =>
       logger_error "Failed to close managed position via API" e ;;;
       ret {| http_status := 500; success := false; data := None;
              error_text :=
                Some (message_or e "Failed to close managed position") |}).

(** ** The rest of the service and of the routes *)

(** [prisma.managedPosition.delete]: removes the row of the id and
    resolves to it; raises when no row has the id. *)
Definition prisma_delete (i : string) : M ManagedPosition :=
  fun w =>
    match find_row i (db w) with
    | Some r =>
        (Ok r, set_db (filter (fun x => negb (String.eqb (id x) i)) (db w)) w)
    | None => (Throw {| message := "Record to delete does not exist." |}, w)
    end.

(** [deleteManagedPosition] *)
Definition deleteManagedPosition (i : string) : M unit :=
  prisma_delete i ;;;
  logger_info "Managed position deleted".

(** The argument of [getManagedPositions]; [limit] is a row count. *)
Module Query.
Record t : Type := {
  status : option ManagedPositionStatus;
  symbol : option string;
  limit : option nat
}.
End Query.

(** [findMany] with [take]. *)
Definition prisma_findMany_take (where_ : ManagedPosition -> bool) (take : nat)
  : M (list ManagedPosition) :=
  fun w => (Ok (firstn take (sort_desc (filter where_ (db w)))), w).

(** The [where] object of [getManagedPositions]: a filter that is absent
    or falsy (the empty string) is left out. *)
Definition matches (byStatus : option ManagedPositionStatus)
  (bySymbol : option string) (r : ManagedPosition) : bool :=
  match byStatus with
  | Some s => status_eqb (status r) s
  | None => true
  end
  &&
  match bySymbol with
  | Some sym => if String.eqb sym "" then true else String.eqb (symbol r) sym
  | None => true
  end.

(** [getManagedPositions] *)
Definition getManagedPositions (params : option Query.t)
  : M (list ManagedPosition) :=
  let byStatus := match params with Some q => Query.status q | None => None end in
  let bySymbol := match params with Some q => Query.symbol q | None => None end in
  let limit :=
    match params with
    | Some q => match Query.limit q with Some n => n | None => 100%nat end
    | None => 100%nat
    end in
  prisma_findMany_take (matches byStatus bySymbol) limit.

(** Decimal notation of a count, for template strings. *)
Definition decimal (n : nat) : string := NilZero.string_of_uint (Nat.to_uint n).

(** [POST /api/positions/monitor] *)
Module MonitorRoute.
Record Response : Type := {
  http_status : nat;
  success : bool;
  data : option CycleResult;
  message_text : option string;
  error_text : option string
}.

(** What the route uses of the object that [new PositionManagerService()]
    gives it: its method [monitorAllPositions]. *)
Module Service.
Record t : Type := {
  monitorAllPositions : M CycleResult
}.
End Service.

(** The handler.  [new_PositionManagerService] is the constructor call,
    which sits inside the [try] and may throw (the configuration is parsed
    there); the method is called on the object it returns. *)
Definition POST (new_PositionManagerService : M Service.t) : M Response :=
  try_catch
    (logger_info "Starting position monitoring via API" ;;;
     service <- new_PositionManagerService ;;
     result <- Service.monitorAllPositions service ;;
     ret {| http_status := 200; success := true; data := Some result;
            message_text :=
              Some ("Monitored " ++ decimal (total result) ++ " positions, "
                    ++ decimal (triggered_count result) ++ " triggered, "
                    ++ decimal (errors result) ++ " errors");
            error_text := None |})
    (fun e =>
       logger_error "Failed to monitor positions via API" e ;;;
       ret {| http_status := 500; success := false; data := None;
              message_text := None;
              error_text := Some (message_or e "Failed to monitor positions") |}).

End MonitorRoute.

(** ** [withRetry] ([lib/utils/retry.ts]) *)

Inductive Backoff : Type := linear | exponential.

(** [RetryOptions]; counts and milliseconds are natural numbers. *)
Module RetryOptions.
Record t : Type := {
  maxAttempts : option nat;
  delay : option nat;
  backoff : option Backoff
}.
End RetryOptions.

(** [RetryError]; [lastError] is what the variable [lastError] holds when
    the error is built. *)
Record RetryError : Type := {
  retry_message : string;
  attempts : nat;
  lastError : option Error
}.

Inductive Settled (T : Type) : Type :=
| Resolved (t : T)
| Rejected (e : RetryError).
Arguments Resolved {T} t.
Arguments Rejected {T} e.

(** [n || d] on a [number | undefined] that holds a count. *)
Definition count_or (o : option nat) (d : nat) : nat :=
  match o with
  | Some O => d
  | Some n => n
  | None => d
  end.

Definition waitTime (backoff : Backoff) (delay attempt : nat) : nat :=
  match backoff with
  | exponential => delay * 2 ^ (attempt - 1)
  | linear => delay * attempt
  end.

Definition retry_failed (maxAttempts : nat) (lastError : option Error)
  : RetryError :=
  {| retry_message := "Operation failed after " ++ decimal maxAttempts ++ " attempts";
     attempts := maxAttempts;
     lastError := lastError |}.

Section WithRetry.
Context {St T : Type}.
(** [await new Promise((resolve) => setTimeout(resolve, waitTime))] *)
Variable sleep : nat -> St -> St.
Variable operation : St -> Outcome T * St.

(** The [for] loop from [attempt] on; [remaining] counts the values
    [attempt] can still take up to [maxAttempts]. *)
Fixpoint retry_from (maxAttempts delay : nat) (backoff : Backoff)
  (remaining attempt : nat) (lastError : option Error) (s : St)
  : Settled T * St :=
  match remaining with
  | O => (Rejected (retry_failed maxAttempts lastError), s)
  | S remaining' =>
      match operation s with
      | (Ok t, s') => (Resolved t, s')
      | (Throw e, s') =>
          if Nat.eqb attempt maxAttempts
          then (Rejected (retry_failed maxAttempts (Some e)), s')
          else
            retry_from maxAttempts delay backoff remaining' (S attempt) (Some e)
              (sleep (waitTime backoff delay attempt) s')
      end
  end.

Definition withRetry (options : RetryOptions.t) : St -> Settled T * St :=
  let maxAttempts := count_or (RetryOptions.maxAttempts options) 3 in
  let delay := count_or (RetryOptions.delay options) 1000 in
  let backoff :=
    match RetryOptions.backoff options with
    | Some b => b
    | None => exponential
    end in
  retry_from maxAttempts delay backoff maxAttempts 1 None.
End WithRetry.

(** ** Vocabulary of the statements *)

Definition warn_no_price : LogEntry :=
  {| level := Warn; text := "No current price available for position";
     cause := None |}.

Definition err_monitor (e : Error) : LogEntry :=
  {| level := Err; text := "Failed to monitor position"; cause := Some e |}.

Definition warn_stop_loss : LogEntry :=
  {| level := Warn; text := "Stop-loss triggered"; cause := None |}.

Definition info_take_profit : LogEntry :=
  {| level := Info; text := "Take-profit triggered"; cause := None |}.

(** How [monitorPosition] ends once the close routine has run: with the
    given result, or with the error the close routine threw, logged. *)
Definition after_close (closing : Outcome ManagedPosition * World)
  (result : MonitorResult) : Outcome MonitorResult * World :=
  match closing with
  | (Ok _, w) => (Ok result, w)
  | (Throw e, w) => (Throw e, add_log (err_monitor e) w)
  end.

(** The world once [monitorPosition] has fetched a price and stored it. *)
Definition priced (i : string) (r : ManagedPosition) (price : Q) (w : World)
  : World :=
  set_db
    (update_rows i
       (price_data price ((price - entry_price r) * qty r)
          (((price - entry_price r) / entry_price r) * 100))
       (S (now w)) (db w))
    (record_call (GetSnapshot (symbol r)) w).

Definition already_closed : Response :=
  {| http_status := 400; success := false; data := None;
     error_text := Some "Position is already closed" |}.

Definition validation_error : Response :=
  {| http_status := 400; success := false; data := None;
     error_text := Some "Validation error" |}.

(** One turn of the loop of [monitorAllPositions]: the position taken
    from the fetched list, the world at that point, and how
    [monitorPosition] ended for it. *)
Record Step : Type := {
  step_position : ManagedPosition;
  step_world : World;
  step_outcome : Outcome MonitorResult
}.

Definition reported_trigger (s : Step) : bool :=
  match step_outcome s with
  | Ok result => triggered result
  | Throw _ => false
  end.

Definition raised (s : Step) : bool :=
  match step_outcome s with
  | Ok _ => false
  | Throw _ => true
  end.

Definition count_triggered (steps : list Step) : nat :=
  List.length (filter reported_trigger steps).

Definition count_errors (steps : list Step) : nat :=
  List.length (filter raised steps).

Definition err_cycle (e : Error) : LogEntry :=
  {| level := Err; text := "Error monitoring position"; cause := Some e |}.

(** The world in which the loop goes on after evaluating [position] in
    [w]: an error is logged by the loop, nothing more. *)
Definition after_turn (this : PositionManagerService)
  (position : ManagedPosition) (w : World) : World :=
  match monitorPosition this (id position) w with
  | (Ok _, w') => w'
  | (Throw e, w') => add_log (err_cycle e) w'
  end.

(** The turns of a cycle over [positions] from [w], and the world at the
    end: every position is evaluated by [monitorPosition], in order, in
    the world its predecessors left. *)
Fixpoint turns (this : PositionManagerService)
  (positions : list ManagedPosition) (w : World) : list Step * World :=
  match positions with
  | [] => ([], w)
  | position :: rest =>
      let s := {| step_position := position; step_world := w;
                  step_outcome := fst (monitorPosition this (id position) w) |} in
      let later := turns this rest (after_turn this position w) in
      (s :: fst later, snd later)
  end.

Definition info_cycle_start : LogEntry :=
  {| level := Info; text := "Starting position monitoring cycle";
     cause := None |}.

Definition info_cycle_done : LogEntry :=
  {| level := Info; text := "Position monitoring cycle completed";
     cause := None |}.

(** The entry order [createManagedPosition] sends for its parameters. *)
Definition entry_request (params : CreateManagedPositionParams) : OrderRequest :=
  {| req_symbol := Params.symbol params; req_qty := Params.qty params;
     req_side := Params.side params |}.

(** What [withRetry] makes of its options. *)
Definition retry_attempts (options : RetryOptions.t) : nat :=
  count_or (RetryOptions.maxAttempts options) 3.

Definition retry_delay (options : RetryOptions.t) : nat :=
  count_or (RetryOptions.delay options) 1000.

Definition retry_backoff (options : RetryOptions.t) : Backoff :=
  match RetryOptions.backoff options with
  | Some b => b
  | None => exponential
  end.

(** A record of what [withRetry] did: how many times it called the
    operation, and the waits it made, latest first. *)
Record Attempts : Type := {
  made : nat;
  waited : list nat
}.

Definition no_attempt : Attempts := {| made := 0; waited := [] |}.

(** An operation whose answer to its n-th call (from 0) is [answer n]. *)
Definition scripted {T : Type} (answer : nat -> Outcome T) (s : Attempts)
  : Outcome T * Attempts :=
  (answer (made s), {| made := S (made s); waited := waited s |}).

Definition record_wait (ms : nat) (s : Attempts) : Attempts :=
  {| made := made s; waited := ms :: waited s |}.

(** The waits before attempts 2, 3, ..., [k + 1], latest first. *)
Definition waits_before (backoff : Backoff) (delay k : nat) : list nat :=
  rev (map (waitTime backoff delay) (seq 1 k)).

(** The row count [getManagedPositions] asks for. *)
Definition query_limit (params : option Query.t) : nat :=
  match params with
  | Some q => match Query.limit q with Some n => n | None => 100%nat end
  | None => 100%nat
  end.

Definition query_status (params : option Query.t)
  : option ManagedPositionStatus :=
  match params with Some q => Query.status q | None => None end.

Definition query_symbol (params : option Query.t) : option string :=
  match params with Some q => Query.symbol q | None => None end.

(** Newest first. *)
(** The symbols whose price was asked of the market-data provider, in the
    order of the requests ([calls] has the latest call first). *)
Fixpoint price_requests (calls : list ExternalCall) : list string :=
  match calls with
  | [] => []
  | GetSnapshot sym :: earlier => (price_requests earlier ++ [sym])%list
  | _ :: earlier => price_requests earlier
  end.





Definition newer_or_same (a b : ManagedPosition) : Prop :=
  (created_at b <= created_at a)%nat.

(** The columns no operation of the monitoring engine writes. *)
Definition same_terms (r r' : ManagedPosition) : Prop :=
  id r' = id r /\
  symbol r' = symbol r /\
  qty r' = qty r /\
  entry_price r' = entry_price r /\
  entry_order_id r' = entry_order_id r /\
  stop_loss_pct r' = stop_loss_pct r /\
  take_profit_pct r' = take_profit_pct r /\
  take_profit_price r' = take_profit_price r /\
  trailing_stop r' = trailing_stop r /\
  created_at r' = created_at r.

(** How a row may change under the monitoring engine: not at all, or, if
    it was active or monitoring, in its live columns only, with a stop-loss
    price that does not go down and a status that stays or becomes closed
    or error. *)
Definition evolves (r r' : ManagedPosition) : Prop :=
  r' = r \/
  (is_active_or_monitoring r = true /\
   same_terms r r' /\
   stop_loss_price r <= stop_loss_price r' /\
   (status r' = status r \/ status r' = closed \/ status r' = error)).

(** The same for a table, row by row as looked up by id. *)
Definition table_evolves (rows rows' : list ManagedPosition) : Prop :=
  map id rows' = map id rows /\
  forall (k : string) (r : ManagedPosition),
    find_row k rows = Some r ->
    exists r' : ManagedPosition, find_row k rows' = Some r' /\ evolves r r'.

(** ** Concrete collaborators, rows and worlds *)

Definition empty_world : World :=
  {| db := []; next_id := 0; now := 0; calls := []; logs := [] |}.

Definition world_of (rows : list ManagedPosition) : World :=
  {| db := rows; next_id := List.length rows; now := 100; calls := [];
     logs := [] |}.

(** A service whose collaborators answer the same at all times. *)
Definition service_of (place close_ : Outcome Order)
  (snapshot : string -> Outcome Snapshot) : PositionManagerService :=
  {| tradingService :=
       {| placeOrder := fun _ _ => place; closePosition := fun _ _ => close_ |};
     dataService := {| getSnapshot := fun _ sym => snapshot sym |} |}.

Definition filled_order (price : Q) : Order :=
  {| order_id := "order-1"; filled_avg_price := Some price |}.

Definition unfilled_order : Order :=
  {| order_id := "order-1"; filled_avg_price := None |}.

Definition trade_at (price : Q) : Snapshot :=
  {| latestTrade := Some {| p := price |}; latestQuote := None |}.

Definition no_price_snapshot : Snapshot :=
  {| latestTrade := None; latestQuote := None |}.

Definition gateway_down : Error := {| message := "gateway unavailable" |}.
Definition feed_down : Error := {| message := "market data unavailable" |}.

(** An open row with the given thresholds; entry price 150, ten shares. *)
Definition row (i sym : string) (st : ManagedPositionStatus)
  (stop target : Q) (trailing : bool) : ManagedPosition :=
  {| id := i; symbol := sym; qty := 10; entry_price := 150;
     entry_order_id := Some "order-0";
     stop_loss_pct := 2; take_profit_pct := 5;
     stop_loss_price := stop; take_profit_price := target;
     trailing_stop := trailing; status := st;
     current_price := Some 150; unrealized_pl := Some 0;
     unrealized_plpc := Some 0;
     closed_price := None; closed_reason := None; exit_order_id := None;
     created_at := 1; updated_at := 1; closed_at := None |}.

Definition long_row : ManagedPosition :=
  row "mp_0" "AAPL" active 147 (315 # 2) false.

(** A row closed earlier at 158, for take-profit. *)
Definition closed_row : ManagedPosition :=
  {| id := "mp_0"; symbol := "AAPL"; qty := 10; entry_price := 150;
     entry_order_id := Some "order-0";
     stop_loss_pct := 2; take_profit_pct := 5;
     stop_loss_price := 147; take_profit_price := 315 # 2;
     trailing_stop := true; status := closed;
     current_price := Some 158; unrealized_pl := Some 80;
     unrealized_plpc := Some (16 # 3);
     closed_price := Some 158; closed_reason := Some "take_profit_triggered";
     exit_order_id := Some "order-9";
     created_at := 1; updated_at := 7; closed_at := Some 7%nat |}.

(** A short position as [createManagedPosition] stores it for a sell at
    200 with 3 and 4 percent: stop-loss price 206, take-profit price 192. *)
Definition short_row : ManagedPosition :=
  {| id := "mp_0"; symbol := "TSLA"; qty := 5; entry_price := 200;
     entry_order_id := Some "order-1";
     stop_loss_pct := 3; take_profit_pct := 4;
     stop_loss_price := stopLossPrice (calculatePrices 200 3 4 sell);
     take_profit_price := takeProfitPrice (calculatePrices 200 3 4 sell);
     trailing_stop := false; status := active;
     current_price := Some 200; unrealized_pl := Some 0;
     unrealized_plpc := Some 0;
     closed_price := None; closed_reason := None; exit_order_id := None;
     created_at := 1; updated_at := 1; closed_at := None |}.


Definition buy_params (sl tp : Q) : CreateManagedPositionParams :=
  {| Params.symbol := "AAPL"; Params.qty := 10; Params.side := buy;
     Params.stopLossPct := sl; Params.takeProfitPct := tp;
     Params.trailingStop := None |}.

Definition exit_order : Order :=
  {| order_id := "order-2"; filled_avg_price := None |}.

(** The market trades at [price] and the brokerage fills and closes. *)
Definition svc (price : Q) : PositionManagerService :=
  service_of (Ok (filled_order 150)) (Ok exit_order) (fun _ => Ok (trade_at price)).

(** The market trades at [price] and the brokerage refuses to close. *)
Definition svc_close_fails (price : Q) : PositionManagerService :=
  service_of (Ok (filled_order 150)) (Throw gateway_down)
    (fun _ => Ok (trade_at price)).

(** The entry order comes back unfilled and the market-data call throws. *)
Definition svc_feed_down : PositionManagerService :=
  service_of (Ok unfilled_order) (Ok exit_order) (fun _ => Throw feed_down).

(** The entry order comes back unfilled and the snapshot has no price. *)
Definition svc_no_price : PositionManagerService :=
  service_of (Ok unfilled_order) (Ok exit_order) (fun _ => Ok no_price_snapshot).

(** The market trades at 150, except that the price fetch for the symbol
    "DOWN" throws. *)
Definition svc_one_down : PositionManagerService :=
  service_of (Ok (filled_order 150)) (Ok exit_order)
    (fun sym => if String.eqb sym "DOWN" then Throw feed_down
                else Ok (trade_at 150)).

(** Ten open positions entered at 140 (so that a fetch at 150 shows); the
    third has its stop-loss price at 151, the seventh has the symbol whose
    price fetch throws. *)
Definition entered_at_140 (i sym : string) (st : ManagedPositionStatus)
  (stop : Q) : ManagedPosition :=
  {| id := i; symbol := sym; qty := 10; entry_price := 140;
     entry_order_id := Some "order-0";
     stop_loss_pct := 2; take_profit_pct := 10;
     stop_loss_price := stop; take_profit_price := 154;
     trailing_stop := false; status := st;
     current_price := Some 140; unrealized_pl := Some 0;
     unrealized_plpc := Some 0;
     closed_price := None; closed_reason := None; exit_order_id := None;
     created_at := 1; updated_at := 1; closed_at := None |}.

Definition ten_rows : list ManagedPosition :=
  [ entered_at_140 "mp_0" "AAPL" active (686 # 5);
    entered_at_140 "mp_1" "MSFT" monitoring (686 # 5);
    entered_at_140 "mp_2" "TSLA" active 151;
    entered_at_140 "mp_3" "AMZN" active (686 # 5);
    entered_at_140 "mp_4" "NVDA" monitoring (686 # 5);
    entered_at_140 "mp_5" "META" active (686 # 5);
    entered_at_140 "mp_6" "DOWN" active (686 # 5);
    entered_at_140 "mp_7" "GOOG" active (686 # 5);
    entered_at_140 "mp_8" "NFLX" active (686 # 5);
    entered_at_140 "mp_9" "ORCL" active (686 # 5) ].





(** Parameters the route's schema refuses: a negative quantity and a
    stop-loss percentage above 100. *)
Definition bad_params : CreateManagedPositionParams :=
  {| Params.symbol := "AAPL"; Params.qty := -10; Params.side := buy;
     Params.stopLossPct := 150; Params.takeProfitPct := 5;
     Params.trailingStop := None |}.

Definition bad_body : Body.t :=
  {| Body.symbol := "AAPL"; Body.qty := -10; Body.side := "buy";
     Body.stopLossPct := 150; Body.takeProfitPct := 5;
     Body.trailingStop := None |}.

(** An operation that fails once and then answers 7, and one that always
    fails. *)
Definition flaky (n : nat) : Outcome nat :=
  match n with
  | O => Throw feed_down
  | _ => Ok 7%nat
  end.

Definition always_down (n : nat) : Outcome nat := Throw feed_down.

Definition default_options : RetryOptions.t :=
  {| RetryOptions.maxAttempts := None; RetryOptions.delay := None;
     RetryOptions.backoff := None |}.

Definition monitoring_query : option Query.t :=
  Some {| Query.status := Some monitoring; Query.symbol := Some "";
          Query.limit := Some 1%nat |}.

Definition good_body : Body.t :=
  {| Body.symbol := "aapl"; Body.qty := 10; Body.side := "buy";
     Body.stopLossPct := 2; Body.takeProfitPct := 5;
     Body.trailingStop := None |}.

Definition good_params : CreateManagedPositionParams :=
  {| Params.symbol := "AAPL"; Params.qty := 10; Params.side := buy;
     Params.stopLossPct := 2; Params.takeProfitPct := 5;
     Params.trailingStop := Some false |}.

(** ** Proof steps *)

(** Unfolds the monad and the elementary operations. *)
Ltac unfold_ops :=
  unfold bind, ret, throw, try_catch, logger_info, logger_warn, logger_error,
    logger_write, external, call_placeOrder, call_closePosition,
    call_getSnapshot, getManagedPosition, prisma_findUnique, prisma_update,
    prisma_create, new_Date in *.

(** Computes, leaving the table operations and the methods folded. *)
Ltac run :=
  cbn -[find_row update_rows apply_patch append closeManagedPosition
       updateTrailingStop updateManagedPosition monitorPosition
       createManagedPosition].

(** * Properties *)

(** ** Threshold computation *)




(** Scenario A, in exact arithmetic: entry 150, long, 2 and 5 percent give
    147.00 and 157.50. *)
Example scenario_A :
  stopLossPrice (calculatePrices 150 2 5 buy) == 147 /\
  takeProfitPrice (calculatePrices 150 2 5 buy) == 315 # 2.
Proof. split; reflexivity. Qed.

(** Scenario B, in exact arithmetic: entry 200, short, 3 and 4 percent give
    206.00 and 192.00. *)
Example scenario_B :
  stopLossPrice (calculatePrices 200 3 4 sell) == 206 /\
  takeProfitPrice (calculatePrices 200 3 4 sell) == 192.
Proof. split; reflexivity. Qed.


(** *** The same on doubles *)

(** Whole entry prices up to 1000 with whole percentages up to 100: the
    doubles the code computes are strictly on their side of the entry
    price. *)
Lemma apart_upto_1000_100 : Double.apart_upto 1000 100 = true.
Proof. vm_compute. reflexivity. Qed.

Lemma apart_upto_spec (prices pcts : nat) :
  Double.apart_upto prices pcts = true ->
  forall n p : nat,
    (1 <= n <= prices)%nat -> (1 <= p <= pcts)%nat ->
    Double.value (Double.whole n) = Some (inject_Z (Z.of_nat n)) /\
    Double.apart (Double.whole n) (Double.whole p) = true.
Proof.
  unfold Double.apart_upto. cbv zeta. intros H n p Hn Hp.
  rewrite forallb_forall in H.
  specialize (H n). rewrite in_seq in H. specialize (H ltac:(lia)).
  apply andb_true_iff in H. destruct H as [Hv Hall].
  split.
  - clear Hall.
    destruct (Double.value (Double.whole n)) as [[num den]|]; [|discriminate].
    cbn [Qnum Qden] in Hv. apply andb_true_iff in Hv. destruct Hv as [Hnum Hden].
    apply Z.eqb_eq in Hnum. apply Pos.eqb_eq in Hden. subst. reflexivity.
  - rewrite forallb_forall in Hall. apply Hall.
    apply in_map. rewrite in_seq. lia.
Qed.

(** Each threshold depends on its own percentage only. *)
Lemma apart_thresholds (entryPrice slPct tpPct : float) :
  Double.apart entryPrice slPct = true ->
  Double.apart entryPrice tpPct = true ->
  let long := Double.calculatePrices entryPrice slPct tpPct buy in
  let short := Double.calculatePrices entryPrice slPct tpPct sell in
  (Double.stopLossPrice long <? entryPrice)%float = true /\
  (entryPrice <? Double.takeProfitPrice long)%float = true /\
  (Double.takeProfitPrice short <? entryPrice)%float = true /\
  (entryPrice <? Double.stopLossPrice short)%float = true /\
  (entryPrice <=? Double.stopLossPrice short)%float = true /\
  (Double.takeProfitPrice short <=? entryPrice)%float = true.
Proof.
  unfold Double.apart. cbn. intros Hs Ht.
  repeat (apply andb_true_iff in Hs; destruct Hs as [Hs ?]).
  repeat (apply andb_true_iff in Ht; destruct Ht as [Ht ?]).
  repeat split; assumption.
Qed.




(** ** The position table *)

Lemma find_row_update_same (i : string) (d : Patch) (t : Date)
  (rows : list ManagedPosition) (r : ManagedPosition) :
  find_row i rows = Some r ->
  find_row i (update_rows i d t rows) = Some (apply_patch d t r).
Proof.
  unfold find_row, update_rows.
  induction rows as [|x rows IH]; simpl; [discriminate|].
  destruct (String.eqb (id x) i) eqn:E; simpl.
  - rewrite E. intros [= Hx]. now rewrite Hx.
  - rewrite E. exact IH.
Qed.

Lemma find_row_update_other (i j : string) (d : Patch) (t : Date)
  (rows : list ManagedPosition) :
  i <> j -> find_row j (update_rows i d t rows) = find_row j rows.
Proof.
  intro Hij. unfold find_row, update_rows.
  induction rows as [|x rows IH]; simpl; [reflexivity|].
  destruct (String.eqb_spec (id x) i) as [Ei|Ei]; simpl.
  - destruct (String.eqb_spec (id x) j) as [Ej|Ej]; [congruence | exact IH].
  - now rewrite IH.
Qed.

(** ** Symbolic execution of the service *)

Lemma updateManagedPosition_found (i : string) (price : Q) (w : World)
  (r : ManagedPosition) :
  find_row i (db w) = Some r ->
  let d := price_data price ((price - entry_price r) * qty r)
             (((price - entry_price r) / entry_price r) * 100) in
  updateManagedPosition i price w =
    (Ok (apply_patch d (now w) r), set_db (update_rows i d (now w) (db w)) w).
Proof.
  intro H. unfold updateManagedPosition. unfold_ops. now rewrite !H.
Qed.

Lemma closeManagedPosition_fails (this : PositionManagerService) (i reason : string)
  (closedPrice : option Q) (w : World) (r : ManagedPosition) (e : Error) :
  find_row i (db w) = Some r ->
  closePosition (tradingService this) (now w) (symbol r) = Throw e ->
  closeManagedPosition this i reason closedPrice w =
    (Throw e,
     let w1 :=
       add_log {| level := Err; text := "Failed to close managed position";
                  cause := Some e |}
         (record_call (ClosePosition (symbol r))
            (add_log {| level := Info; text := "Closing managed position";
                        cause := None |} w)) in
     set_db (update_rows i (error_data e) (S (now w)) (db w)) w1).
Proof.
  intros Hr He. unfold closeManagedPosition. unfold_ops.
  repeat (progress (rewrite ?Hr, ?He; run)). reflexivity.
Qed.

Lemma closeManagedPosition_succeeds (this : PositionManagerService)
  (i reason : string) (closedPrice : option Q) (w : World)
  (r : ManagedPosition) (o : Order) :
  find_row i (db w) = Some r ->
  closePosition (tradingService this) (now w) (symbol r) = Ok o ->
  let d := closed_data (final_closed_price closedPrice o r) reason (order_id o)
             (S (now w)) in
  closeManagedPosition this i reason closedPrice w =
    (Ok (apply_patch d (S (now w)) r),
     add_log {| level := Info; text := "Managed position closed successfully";
                cause := None |}
       (set_db (update_rows i d (S (now w)) (db w))
          (record_call (ClosePosition (symbol r))
             (add_log {| level := Info; text := "Closing managed position";
                         cause := None |} w)))).
Proof.
  intros Hr Ho. unfold closeManagedPosition. unfold_ops.
  repeat (progress (rewrite ?Hr, ?Ho; run)). reflexivity.
Qed.

(** ** The close routine *)

(** C5. When the gateway's close call fails, [closeManagedPosition]
    re-raises the error to its caller, and the one write it makes sets
    status to [error] and the closed-reason to the failure message; the
    status is not [closed] and the exit-order reference, the closed price
    and the closing time are left as they were. *)
Theorem C5_close_failure_marks_error (this : PositionManagerService)
  (i reason : string) (closedPrice : option Q) (w : World)
  (r : ManagedPosition) (e : Error) :
  find_row i (db w) = Some r ->
  closePosition (tradingService this) (now w) (symbol r) = Throw e ->
  exists (w' : World) (r' : ManagedPosition),
    closeManagedPosition this i reason closedPrice w = (Throw e, w') /\
    db w' = update_rows i (error_data e) (S (now w)) (db w) /\
    find_row i (db w') = Some r' /\
    status r' = error /\
    status r' <> closed /\
    closed_reason r' = Some ("Error: " ++ message e) /\
    exit_order_id r' = exit_order_id r /\
    closed_price r' = closed_price r /\
    closed_at r' = closed_at r.
Proof.
  intros Hr He.
  eexists; exists (apply_patch (error_data e) (S (now w)) r).
  split; [apply (closeManagedPosition_fails _ _ _ _ _ _ _ Hr He)|].
  cbn -[update_rows find_row apply_patch].
  split; [reflexivity|].
  split; [now apply find_row_update_same|].
  cbn. repeat split; discriminate.
Qed.

Lemma C5_close_failure_marks_error_witness :
  find_row "mp_0" (db (world_of [long_row])) = Some long_row /\
  closePosition (tradingService (svc_close_fails 145))
    (now (world_of [long_row])) (symbol long_row) = Throw gateway_down /\
  exists (w' : World) (r' : ManagedPosition),
    closeManagedPosition (svc_close_fails 145) "mp_0" "manual_close" None
      (world_of [long_row]) = (Throw gateway_down, w') /\
    db w' = update_rows "mp_0" (error_data gateway_down)
              (S (now (world_of [long_row]))) (db (world_of [long_row])) /\
    find_row "mp_0" (db w') = Some r' /\
    status r' = error /\
    status r' <> closed /\
    closed_reason r' = Some ("Error: " ++ message gateway_down) /\
    exit_order_id r' = exit_order_id long_row /\
    closed_price r' = closed_price long_row /\
    closed_at r' = closed_at long_row.
Proof.
  split; [reflexivity|]. split; [reflexivity|].
  apply (C5_close_failure_marks_error (svc_close_fails 145) "mp_0"
           "manual_close" None (world_of [long_row]) long_row gateway_down);
    reflexivity.
Defined.

(** ** The trailing stop *)

Lemma Qlt_bool_iff (a b : Q) : Qlt_bool a b = true <-> a < b.
Proof.
  unfold Qlt_bool. rewrite negb_true_iff.
  split; intro H.
  - apply Qnot_le_lt. intro Hle. apply Qle_bool_iff in Hle. congruence.
  - destruct (Qle_bool b a) eqn:E; [|reflexivity].
    apply Qle_bool_iff in E. lra.
Qed.

Lemma Qlt_bool_false (a b : Q) : Qlt_bool a b = false <-> b <= a.
Proof.
  unfold Qlt_bool. rewrite negb_false_iff. apply Qle_bool_iff.
Qed.

Lemma updateTrailingStop_raises (i : string) (price : Q) (w : World)
  (r : ManagedPosition) :
  find_row i (db w) = Some r ->
  stop_loss_price r < trailing_candidate r price ->
  updateTrailingStop i price w =
    (Ok tt,
     add_log {| level := Info; text := "Trailing stop updated"; cause := None |}
       (set_db (update_rows i (trailing_data (trailing_candidate r price))
                  (now w) (db w)) w)).
Proof.
  intros Hr Hlt. apply Qlt_bool_iff in Hlt. unfold trailing_candidate in Hlt.
  unfold updateTrailingStop. unfold_ops.
  repeat (progress (rewrite ?Hr, ?Hlt; run)). reflexivity.
Qed.

Lemma updateTrailingStop_keeps (i : string) (price : Q) (w : World)
  (r : ManagedPosition) :
  find_row i (db w) = Some r ->
  trailing_candidate r price <= stop_loss_price r ->
  updateTrailingStop i price w = (Ok tt, w).
Proof.
  intros Hr Hle. apply Qlt_bool_false in Hle. unfold trailing_candidate in Hle.
  unfold updateTrailingStop. unfold_ops.
  repeat (progress (rewrite ?Hr, ?Hle; run)). reflexivity.
Qed.




(** Scenario E: entry 150, 2 percent, price 150 then 160 then 155: the
    stored stop-loss price goes 147.00, 156.80, 156.80. *)
Example scenario_E :
  let stop_after (prices : list Q) :=
    option_map stop_loss_price
      (find_row "mp_0"
         (db (snd (adjust_calls "mp_0" prices
                     (world_of [row "mp_0" "AAPL" active 0 1000 true]))))) in
  match stop_after [150], stop_after [150; 160], stop_after [150; 160; 155] with
  | Some s1, Some s2, Some s3 => s1 == 147 /\ s2 == 784 # 5 /\ s3 == 784 # 5
  | _, _, _ => False
  end.
Proof. cbn. repeat split. Qed.




(** ** The threshold evaluator *)

Lemma open_status (r : ManagedPosition) :
  is_active_or_monitoring r = true ->
  negb (status_eqb (status r) active) && negb (status_eqb (status r) monitoring)
  = false.
Proof.
  unfold is_active_or_monitoring. intro H.
  rewrite <- negb_orb, H. reflexivity.
Qed.

Lemma not_open_status (r : ManagedPosition) :
  is_active_or_monitoring r = false ->
  negb (status_eqb (status r) active) && negb (status_eqb (status r) monitoring)
  = true.
Proof.
  unfold is_active_or_monitoring. intro H.
  rewrite <- negb_orb, H. reflexivity.
Qed.

Lemma monitorPosition_missing (this : PositionManagerService) (i : string)
  (w : World) :
  find_row i (db w) = None ->
  monitorPosition this i w = (Throw (not_found i), w).
Proof.
  intro H. unfold monitorPosition. unfold_ops. now rewrite H.
Qed.

Lemma monitorPosition_skips (this : PositionManagerService) (i : string)
  (w : World) (r : ManagedPosition) :
  find_row i (db w) = Some r ->
  is_active_or_monitoring r = false ->
  monitorPosition this i w = (Ok not_triggered, w).
Proof.
  intros Hr Hs. apply not_open_status in Hs.
  unfold monitorPosition. unfold_ops. now rewrite Hr, Hs.
Qed.

Lemma monitorPosition_feed_throws (this : PositionManagerService) (i : string)
  (w : World) (r : ManagedPosition) (e : Error) :
  find_row i (db w) = Some r ->
  is_active_or_monitoring r = true ->
  getSnapshot (dataService this) (now w) (symbol r) = Throw e ->
  monitorPosition this i w =
    (Throw e, add_log (err_monitor e) (record_call (GetSnapshot (symbol r)) w)).
Proof.
  intros Hr Hs He. apply open_status in Hs.
  unfold monitorPosition. unfold_ops.
  repeat (progress (rewrite ?Hr, ?Hs, ?He; run)). reflexivity.
Qed.

Lemma monitorPosition_no_price (this : PositionManagerService) (i : string)
  (w : World) (r : ManagedPosition) (snapshot : Snapshot) :
  find_row i (db w) = Some r ->
  is_active_or_monitoring r = true ->
  getSnapshot (dataService this) (now w) (symbol r) = Ok snapshot ->
  truthy (snapshot_price snapshot) = false ->
  monitorPosition this i w =
    (Ok not_triggered,
     add_log warn_no_price (record_call (GetSnapshot (symbol r)) w)).
Proof.
  intros Hr Hs Hsnap Hp. apply open_status in Hs.
  unfold monitorPosition. unfold_ops.
  repeat (progress (rewrite ?Hr, ?Hs, ?Hsnap; run)).
  destruct (snapshot_price snapshot) as [c|]; [|reflexivity].
  now rewrite Hp.
Qed.

Lemma open_iff (r : ManagedPosition) :
  is_active_or_monitoring r = true <->
  status r = active \/ status r = monitoring.
Proof.
  unfold is_active_or_monitoring.
  destruct (status r); cbn; split; intro H;
    try discriminate; try (destruct H; discriminate); auto.
Qed.

(** C2, as the code has it.  For a position that is active or monitoring:
    when the price provider answers with a snapshot that carries no price,
    [monitorPosition] logs a warning and returns [{triggered: false}]
    without writing to the table; when the price provider throws,
    [monitorPosition] logs the error and throws it again to its caller,
    also without writing to the table. *)
Theorem C2_monitor_price_provider_failure (this : PositionManagerService)
  (i : string) (w : World) (r : ManagedPosition) :
  find_row i (db w) = Some r ->
  status r = active \/ status r = monitoring ->
  (forall snapshot : Snapshot,
     getSnapshot (dataService this) (now w) (symbol r) = Ok snapshot ->
     truthy (snapshot_price snapshot) = false ->
     exists w' : World,
       monitorPosition this i w = (Ok not_triggered, w') /\
       db w' = db w /\
       logs w' = warn_no_price :: logs w) /\
  (forall e : Error,
     getSnapshot (dataService this) (now w) (symbol r) = Throw e ->
     exists w' : World,
       monitorPosition this i w = (Throw e, w') /\
       db w' = db w /\
       logs w' = err_monitor e :: logs w).
Proof.
  intros Hr Hs. apply open_iff in Hs. split.
  - intros snapshot Hsnap Hp. eexists. split.
    + apply (monitorPosition_no_price _ _ _ _ _ Hr Hs Hsnap Hp).
    + split; reflexivity.
  - intros e He. eexists. split.
    + apply (monitorPosition_feed_throws _ _ _ _ _ Hr Hs He).
    + split; reflexivity.
Qed.

Lemma C2_monitor_price_provider_failure_witness :
  find_row "mp_0" (db (world_of [long_row])) = Some long_row /\
  (status long_row = active \/ status long_row = monitoring) /\
  getSnapshot (dataService svc_no_price) (now (world_of [long_row]))
    (symbol long_row) = Ok no_price_snapshot /\
  truthy (snapshot_price no_price_snapshot) = false /\
  exists w' : World,
    monitorPosition svc_no_price "mp_0" (world_of [long_row])
      = (Ok not_triggered, w') /\
    db w' = db (world_of [long_row]) /\
    logs w' = warn_no_price :: logs (world_of [long_row]).
Proof.
  split; [reflexivity|]. split; [left; reflexivity|].
  split; [reflexivity|]. split; [reflexivity|].
  apply (proj1 (C2_monitor_price_provider_failure svc_no_price "mp_0"
                  (world_of [long_row]) long_row eq_refl (or_introl eq_refl))
           no_price_snapshot);
    reflexivity.
Defined.

(** The claim that [monitorPosition] never raises when the price provider
    fails does not hold: for an active position whose price fetch throws,
    [monitorPosition] throws that error instead of returning
    [{triggered: false}]. *)
Lemma C2_provider_throw_is_raised :
  find_row "mp_0" (db (world_of [long_row])) = Some long_row /\
  status long_row = active /\
  getSnapshot (dataService svc_feed_down) (now (world_of [long_row]))
    (symbol long_row) = Throw feed_down /\
  fst (monitorPosition svc_feed_down "mp_0" (world_of [long_row]))
    = Throw feed_down /\
  fst (monitorPosition svc_feed_down "mp_0" (world_of [long_row]))
    <> Ok not_triggered.
Proof.
  repeat split; try reflexivity. cbn. discriminate.
Qed.

Lemma updateTrailingStop_ok (i : string) (price : Q) (w : World) :
  fst (updateTrailingStop i price w) = Ok tt.
Proof.
  unfold updateTrailingStop. unfold_ops.
  destruct (find_row i (db w)) as [r|] eqn:Hr; [|reflexivity].
  destruct (Qlt_bool _ _); [|reflexivity].
  run. now rewrite Hr.
Qed.

(** What [monitorPosition] does once a price is there. *)
Lemma monitorPosition_priced (this : PositionManagerService) (i : string)
  (w : World) (r : ManagedPosition) (snapshot : Snapshot) (price : Q) :
  find_row i (db w) = Some r ->
  is_active_or_monitoring r = true ->
  getSnapshot (dataService this) (now w) (symbol r) = Ok snapshot ->
  snapshot_price snapshot = Some price ->
  truthy (Some price) = true ->
  monitorPosition this i w =
    if Qle_bool price (stop_loss_price r) then
      after_close
        (closeManagedPosition this i "stop_loss_triggered" (Some price)
           (add_log warn_stop_loss (priced i r price w)))
        stop_loss_result
    else if Qle_bool (take_profit_price r) price then
      after_close
        (closeManagedPosition this i "take_profit_triggered" (Some price)
           (add_log info_take_profit (priced i r price w)))
        take_profit_result
    else if trailing_stop r then
      (Ok not_triggered, snd (updateTrailingStop i price (priced i r price w)))
    else (Ok not_triggered, priced i r price w).
Proof.
  intros Hr Hs Hsnap Hp Ht. apply open_status in Hs.
  unfold monitorPosition, updateManagedPosition. unfold_ops.
  repeat (progress (rewrite ?Hr, ?Hs, ?Hsnap, ?Hp, ?Ht; run)).
  fold (priced i r price w).
  destruct (Qle_bool price (stop_loss_price r)).
  - unfold after_close.
    destruct (closeManagedPosition _ _ _ _ _) as [[c|e] w2]; reflexivity.
  - destruct (Qle_bool (take_profit_price r) price).
    + unfold after_close.
      destruct (closeManagedPosition _ _ _ _ _) as [[c|e] w2]; reflexivity.
    + destruct (trailing_stop r); [|reflexivity].
      pose proof (updateTrailingStop_ok i price (priced i r price w)) as Hok.
      destruct (updateTrailingStop i price (priced i r price w)) as [o w2].
      cbn in Hok. subst o. reflexivity.
Qed.

Lemma find_row_priced (i : string) (r : ManagedPosition) (price : Q)
  (w : World) (l : LogEntry) :
  find_row i (db w) = Some r ->
  exists r1 : ManagedPosition,
    find_row i (db (add_log l (priced i r price w))) = Some r1 /\
    find_row i (db (priced i r price w)) = Some r1 /\
    symbol r1 = symbol r /\
    status r1 = status r /\
    stop_loss_pct r1 = stop_loss_pct r /\
    stop_loss_price r1 = stop_loss_price r /\
    exit_order_id r1 = exit_order_id r /\
    current_price r1 = Some price.
Proof.
  intro Hr. eexists. cbn -[find_row update_rows apply_patch].
  split; [apply find_row_update_same; exact Hr|].
  split; [apply find_row_update_same; exact Hr|].
  cbn. repeat split.
Qed.

(** The close routine, called by [monitorPosition] on a trigger, when the
    brokerage closes the position. *)
Lemma triggered_close_succeeds (this : PositionManagerService)
  (i reason : string) (w : World) (r : ManagedPosition) (price : Q)
  (l : LogEntry) (o : Order) (result : MonitorResult) :
  find_row i (db w) = Some r ->
  truthy (Some price) = true ->
  closePosition (tradingService this) (S (now w)) (symbol r) = Ok o ->
  exists (w' : World) (r' : ManagedPosition),
    after_close
      (closeManagedPosition this i reason (Some price)
         (add_log l (priced i r price w))) result = (Ok result, w') /\
    find_row i (db w') = Some r' /\
    status r' = closed /\
    closed_reason r' = Some reason /\
    closed_price r' = Some price /\
    exit_order_id r' = Some (order_id o) /\
    current_price r' = Some price.
Proof.
  intros Hr Ht Ho.
  destruct (find_row_priced i r price w l Hr)
    as (r1 & Hr1 & _ & Hsym & _ & _ & _ & _ & Hcur).
  assert (Ho1 : closePosition (tradingService this)
                  (now (add_log l (priced i r price w))) (symbol r1) = Ok o)
    by (rewrite Hsym; exact Ho).
  rewrite (closeManagedPosition_succeeds _ _ _ _ _ _ _ Hr1 Ho1).
  do 2 eexists. split; [reflexivity|].
  cbn -[find_row update_rows apply_patch] in *.
  split; [apply find_row_update_same; exact Hr1|].
  cbn -[final_closed_price or_default].
  repeat split; try assumption.
  apply negb_true_iff in Ht. now rewrite Ht.
Qed.

(** The same call when the brokerage refuses. *)
Lemma triggered_close_fails (this : PositionManagerService)
  (i reason : string) (w : World) (r : ManagedPosition) (price : Q)
  (l : LogEntry) (e : Error) (result : MonitorResult) :
  find_row i (db w) = Some r ->
  closePosition (tradingService this) (S (now w)) (symbol r) = Throw e ->
  exists (w' : World) (r' : ManagedPosition),
    after_close
      (closeManagedPosition this i reason (Some price)
         (add_log l (priced i r price w))) result = (Throw e, w') /\
    find_row i (db w') = Some r' /\
    status r' = error /\
    closed_reason r' = Some ("Error: " ++ message e) /\
    exit_order_id r' = exit_order_id r /\
    current_price r' = Some price.
Proof.
  intros Hr He.
  destruct (find_row_priced i r price w l Hr)
    as (r1 & Hr1 & _ & Hsym & _ & _ & _ & Hexit & Hcur).
  assert (He1 : closePosition (tradingService this)
                  (now (add_log l (priced i r price w))) (symbol r1) = Throw e)
    by (rewrite Hsym; exact He).
  rewrite (closeManagedPosition_fails _ _ _ _ _ _ _ Hr1 He1).
  do 2 eexists. split; [reflexivity|].
  cbn -[find_row update_rows apply_patch] in *.
  split; [apply find_row_update_same; exact Hr1|].
  cbn. repeat split; assumption.
Qed.

(** A trailing-stop adjustment keeps the row's status and stored price. *)
Lemma updateTrailingStop_row (i : string) (price : Q) (w : World)
  (r : ManagedPosition) :
  find_row i (db w) = Some r ->
  exists r' : ManagedPosition,
    find_row i (db (snd (updateTrailingStop i price w))) = Some r' /\
    status r' = status r /\
    current_price r' = current_price r.
Proof.
  intro Hr.
  destruct (Qlt_le_dec (stop_loss_price r) (trailing_candidate r price)) as [Hlt|Hle].
  - rewrite (updateTrailingStop_raises _ _ _ _ Hr Hlt).
    eexists. cbn -[update_rows find_row apply_patch].
    split; [apply find_row_update_same; exact Hr|]. split; reflexivity.
  - rewrite (updateTrailingStop_keeps _ _ _ _ Hr Hle).
    exists r. repeat split. exact Hr.
Qed.

(** C7, as the code has it.  For a position that is active or monitoring
    and a current price that is available:
    - if current <= stopLossPrice and the brokerage closes the position,
      [monitorPosition] returns
      [{triggered: true, reason: "stop_loss", action: "closed"}] and the
      row ends closed, with closed-reason "stop_loss_triggered";
    - if not, and current >= takeProfitPrice and the brokerage closes the
      position, it returns
      [{triggered: true, reason: "take_profit", action: "closed"}] and the
      row ends closed, with closed-reason "take_profit_triggered";
    - if neither threshold is reached it returns [{triggered: false}] and
      the status is unchanged;
    - if a threshold is reached and the brokerage refuses to close, it
      throws that error and the row ends in status error.
    In all cases the row's current price is the price just observed. *)
Theorem C7_monitor_triggers (this : PositionManagerService) (i : string)
  (w : World) (r : ManagedPosition) (snapshot : Snapshot) (price : Q) :
  find_row i (db w) = Some r ->
  status r = active \/ status r = monitoring ->
  getSnapshot (dataService this) (now w) (symbol r) = Ok snapshot ->
  snapshot_price snapshot = Some price ->
  truthy (Some price) = true ->
  (price <= stop_loss_price r ->
   forall o : Order,
     closePosition (tradingService this) (S (now w)) (symbol r) = Ok o ->
     exists (w' : World) (r' : ManagedPosition),
       monitorPosition this i w = (Ok stop_loss_result, w') /\
       find_row i (db w') = Some r' /\
       status r' = closed /\
       closed_reason r' = Some "stop_loss_triggered" /\
       closed_price r' = Some price /\
       exit_order_id r' = Some (order_id o) /\
       current_price r' = Some price) /\
  (~ price <= stop_loss_price r -> take_profit_price r <= price ->
   forall o : Order,
     closePosition (tradingService this) (S (now w)) (symbol r) = Ok o ->
     exists (w' : World) (r' : ManagedPosition),
       monitorPosition this i w = (Ok take_profit_result, w') /\
       find_row i (db w') = Some r' /\
       status r' = closed /\
       closed_reason r' = Some "take_profit_triggered" /\
       closed_price r' = Some price /\
       exit_order_id r' = Some (order_id o) /\
       current_price r' = Some price) /\
  (~ price <= stop_loss_price r -> ~ take_profit_price r <= price ->
   exists (w' : World) (r' : ManagedPosition),
     monitorPosition this i w = (Ok not_triggered, w') /\
     find_row i (db w') = Some r' /\
     status r' = status r /\
     current_price r' = Some price) /\
  (price <= stop_loss_price r \/ take_profit_price r <= price ->
   forall e : Error,
     closePosition (tradingService this) (S (now w)) (symbol r) = Throw e ->
     exists (w' : World) (r' : ManagedPosition),
       monitorPosition this i w = (Throw e, w') /\
       find_row i (db w') = Some r' /\
       status r' = error /\
       current_price r' = Some price).
Proof.
  intros Hr Hs Hsnap Hp Ht. apply open_iff in Hs.
  rewrite (monitorPosition_priced _ _ _ _ _ _ Hr Hs Hsnap Hp Ht).
  repeat split.
  - intros Hsl o Ho. apply Qle_bool_iff in Hsl. rewrite Hsl.
    apply (triggered_close_succeeds _ _ _ _ _ _ _ _ _ Hr Ht Ho).
  - intros Hsl Htp o Ho.
    destruct (Qle_bool price (stop_loss_price r)) eqn:E;
      [apply Qle_bool_iff in E; contradiction|].
    apply Qle_bool_iff in Htp. rewrite Htp.
    apply (triggered_close_succeeds _ _ _ _ _ _ _ _ _ Hr Ht Ho).
  - intros Hsl Htp.
    destruct (Qle_bool price (stop_loss_price r)) eqn:E1;
      [apply Qle_bool_iff in E1; contradiction|].
    destruct (Qle_bool (take_profit_price r) price) eqn:E2;
      [apply Qle_bool_iff in E2; contradiction|].
    destruct (find_row_priced i r price w warn_stop_loss Hr)
      as (r1 & _ & Hr1 & _ & Hst & _ & _ & _ & Hcur).
    destruct (trailing_stop r).
    + destruct (updateTrailingStop_row i price _ r1 Hr1) as (r2 & Hr2 & Hst2 & Hcur2).
      do 2 eexists. split; [reflexivity|]. cbn [snd].
      split; [exact Hr2|]. split; congruence.
    + do 2 eexists. split; [reflexivity|]. split; [exact Hr1|]. split; assumption.
  - intros Htrig e He.
    destruct (Qle_bool price (stop_loss_price r)) eqn:E1.
    + destruct (triggered_close_fails this i "stop_loss_triggered" w r price
                  warn_stop_loss e stop_loss_result Hr He)
        as (w' & r' & H1 & H2 & H3 & _ & _ & H4).
      exists w', r'. repeat split; assumption.
    + destruct Htrig as [Hsl|Htp];
        [apply Qle_bool_iff in Hsl; congruence|].
      apply Qle_bool_iff in Htp. rewrite Htp.
      destruct (triggered_close_fails this i "take_profit_triggered" w r price
                  info_take_profit e take_profit_result Hr He)
        as (w' & r' & H1 & H2 & H3 & _ & _ & H4).
      exists w', r'. repeat split; assumption.
Qed.

(** Scenario C: current price 145 against a stop-loss price of 147, long:
    triggered, reason "stop_loss", final status closed. *)
Lemma C7_monitor_triggers_witness :
  find_row "mp_0" (db (world_of [long_row])) = Some long_row /\
  (status long_row = active \/ status long_row = monitoring) /\
  getSnapshot (dataService (svc 145)) (now (world_of [long_row]))
    (symbol long_row) = Ok (trade_at 145) /\
  snapshot_price (trade_at 145) = Some 145 /\
  truthy (Some 145) = true /\
  145 <= stop_loss_price long_row /\
  closePosition (tradingService (svc 145)) (S (now (world_of [long_row])))
    (symbol long_row) = Ok exit_order /\
  exists (w' : World) (r' : ManagedPosition),
    monitorPosition (svc 145) "mp_0" (world_of [long_row])
      = (Ok stop_loss_result, w') /\
    find_row "mp_0" (db w') = Some r' /\
    status r' = closed /\
    closed_reason r' = Some "stop_loss_triggered" /\
    closed_price r' = Some 145 /\
    exit_order_id r' = Some (order_id exit_order) /\
    current_price r' = Some 145.
Proof.
  split; [reflexivity|]. split; [left; reflexivity|].
  split; [reflexivity|]. split; [reflexivity|]. split; [reflexivity|].
  split; [discriminate|]. split; [reflexivity|].
  apply (proj1 (C7_monitor_triggers (svc 145) "mp_0" (world_of [long_row])
                  long_row (trade_at 145) 145 eq_refl (or_introl eq_refl)
                  eq_refl eq_refl eq_refl));
    [discriminate | reflexivity].
Defined.

(** The claim that every triggered evaluation returns a result and leaves
    the status closed does not hold: with the price at 145, under the
    stop-loss price of 147, and a brokerage that refuses to close,
    [monitorPosition] throws and the row ends in status error. *)
Lemma C7_trigger_with_failing_close :
  find_row "mp_0" (db (world_of [long_row])) = Some long_row /\
  status long_row = active /\
  snapshot_price (trade_at 145) = Some 145 /\
  145 <= stop_loss_price long_row /\
  fst (monitorPosition (svc_close_fails 145) "mp_0" (world_of [long_row]))
    = Throw gateway_down /\
  option_map status
    (find_row "mp_0"
       (db (snd (monitorPosition (svc_close_fails 145) "mp_0"
                   (world_of [long_row])))))
    = Some error.
Proof.
  repeat split; try reflexivity. discriminate.
Qed.

(** C10, as the code has it.  When both trigger conditions hold in one
    evaluation (current <= stopLossPrice and current >= takeProfitPrice),
    [monitorPosition] takes the stop-loss branch, which is tested first:
    it calls the close routine with the stop-loss reason and never returns
    the take-profit result.  When the brokerage closes the position it
    returns [{triggered: true, reason: "stop_loss", action: "closed"}] and
    the row ends closed with reason "stop_loss_triggered"; when the
    brokerage refuses, it throws the brokerage's error and the row ends in
    status error.  Both conditions can hold together: for the short
    position of scenario B the code computes the thresholds 206 and 192,
    and at its entry price 200 both conditions hold; so they do, in
    doubles, at the entry price of every short position entered at a whole
    price from 1 to 1000 with whole percentages from 1 to 100. *)
Theorem C10_stop_loss_takes_priority :
  (forall (this : PositionManagerService) (i : string) (w : World)
          (r : ManagedPosition) (snapshot : Snapshot) (price : Q),
     find_row i (db w) = Some r ->
     status r = active \/ status r = monitoring ->
     getSnapshot (dataService this) (now w) (symbol r) = Ok snapshot ->
     snapshot_price snapshot = Some price ->
     truthy (Some price) = true ->
     price <= stop_loss_price r ->
     take_profit_price r <= price ->
     monitorPosition this i w =
       after_close
         (closeManagedPosition this i "stop_loss_triggered" (Some price)
            (add_log warn_stop_loss (priced i r price w)))
         stop_loss_result /\
     fst (monitorPosition this i w) <> Ok take_profit_result /\
     (forall o : Order,
        closePosition (tradingService this) (S (now w)) (symbol r) = Ok o ->
        exists (w' : World) (r' : ManagedPosition),
          monitorPosition this i w = (Ok stop_loss_result, w') /\
          find_row i (db w') = Some r' /\
          status r' = closed /\
          closed_reason r' = Some "stop_loss_triggered") /\
     (forall e : Error,
        closePosition (tradingService this) (S (now w)) (symbol r) = Throw e ->
        exists (w' : World) (r' : ManagedPosition),
          monitorPosition this i w = (Throw e, w') /\
          find_row i (db w') = Some r' /\
          status r' = error)) /\
  (Double.calculatePrices 200%float 3%float 4%float sell
   = {| Double.stopLossPrice := 206%float;
        Double.takeProfitPrice := 192%float |} /\
   (200 <=? 206)%float = true /\ (192 <=? 200)%float = true /\
   stop_loss_price short_row == 206 /\
   take_profit_price short_row == 192 /\
   200 <= stop_loss_price short_row /\
   take_profit_price short_row <= 200) /\
  (forall n sl tp : nat,
     (1 <= n <= 1000)%nat -> (1 <= sl <= 100)%nat -> (1 <= tp <= 100)%nat ->
     let current := Double.whole n in
     let short :=
       Double.calculatePrices current (Double.whole sl) (Double.whole tp) sell in
     (current <=? Double.stopLossPrice short)%float = true /\
     (Double.takeProfitPrice short <=? current)%float = true).
Proof.
  split; [|split].
  - intros this i w r snapshot price Hr Hs Hsnap Hp Ht Hsl Htp.
    apply open_iff in Hs.
    rewrite (monitorPosition_priced _ _ _ _ _ _ Hr Hs Hsnap Hp Ht).
    apply Qle_bool_iff in Hsl. rewrite Hsl.
    split; [reflexivity|]. split; [|split].
    + unfold after_close.
      destruct (closeManagedPosition _ _ _ _ _) as [[c|e] w2]; cbn; discriminate.
    + intros o Ho.
      destruct (triggered_close_succeeds this i "stop_loss_triggered" w r price
                  warn_stop_loss o stop_loss_result Hr Ht Ho)
        as (w' & r' & H1 & H2 & H3 & H4 & _).
      exists w', r'. repeat split; assumption.
    + intros e He.
      destruct (triggered_close_fails this i "stop_loss_triggered" w r price
                  warn_stop_loss e stop_loss_result Hr He)
        as (w' & r' & H1 & H2 & H3 & _).
      exists w', r'. repeat split; assumption.
  - split; [vm_compute; reflexivity|].
    split; [reflexivity|]. split; [reflexivity|].
    split; [reflexivity|]. split; [reflexivity|].
    split; discriminate.
  - intros n sl tp Hn Hsl Htp.
    destruct (apart_upto_spec 1000 100 apart_upto_1000_100 n sl Hn Hsl)
      as [_ Hs].
    destruct (apart_upto_spec 1000 100 apart_upto_1000_100 n tp Hn Htp)
      as [_ Ht].
    destruct (apart_thresholds _ _ _ Hs Ht) as (_ & _ & _ & _ & H5 & H6).
    split; assumption.
Qed.

(** A short position opened at 200 with 3 and 4 percent (thresholds 206 and
    192), evaluated at 200: both conditions hold and the stop-loss wins. *)
Lemma C10_stop_loss_takes_priority_witness :
  find_row "mp_0" (db (world_of [short_row])) = Some short_row /\
  (status short_row = active \/ status short_row = monitoring) /\
  getSnapshot (dataService (svc 200)) (now (world_of [short_row]))
    (symbol short_row) = Ok (trade_at 200) /\
  snapshot_price (trade_at 200) = Some 200 /\
  truthy (Some 200) = true /\
  200 <= stop_loss_price short_row /\
  take_profit_price short_row <= 200 /\
  closePosition (tradingService (svc 200)) (S (now (world_of [short_row])))
    (symbol short_row) = Ok exit_order /\
  exists (w' : World) (r' : ManagedPosition),
    monitorPosition (svc 200) "mp_0" (world_of [short_row])
      = (Ok stop_loss_result, w') /\
    find_row "mp_0" (db w') = Some r' /\
    status r' = closed /\
    closed_reason r' = Some "stop_loss_triggered".
Proof.
  split; [reflexivity|]. split; [left; reflexivity|].
  split; [reflexivity|]. split; [reflexivity|]. split; [reflexivity|].
  split; [discriminate|]. split; [discriminate|]. split; [reflexivity|].
  apply (proj1 (proj2 (proj2
           (proj1 C10_stop_loss_takes_priority (svc 200) "mp_0"
              (world_of [short_row]) short_row (trade_at 200) 200
              eq_refl (or_introl eq_refl) eq_refl eq_refl eq_refl
              ltac:(discriminate) ltac:(discriminate)))) exit_order).
  reflexivity.
Defined.

(** With both conditions true the position is not always closed: for the
    short position of scenario B at 200 and a brokerage that refuses to
    close, [monitorPosition] throws and the row ends in status error, with
    no closed-reason "stop_loss_triggered".  Nor does the stop-loss price
    of a short position always exceed its take-profit price: with entry
    price 150 and both percentages 1e-15 the code computes 150 for both. *)
Lemma C10_both_conditions_with_failing_close :
  find_row "mp_0" (db (world_of [short_row])) = Some short_row /\
  status short_row = active /\
  snapshot_price (trade_at 200) = Some 200 /\
  200 <= stop_loss_price short_row /\
  take_profit_price short_row <= 200 /\
  fst (monitorPosition (svc_close_fails 200) "mp_0" (world_of [short_row]))
    = Throw gateway_down /\
  option_map status
    (find_row "mp_0"
       (db (snd (monitorPosition (svc_close_fails 200) "mp_0"
                   (world_of [short_row])))))
    = Some error /\
  option_map closed_reason
    (find_row "mp_0"
       (db (snd (monitorPosition (svc_close_fails 200) "mp_0"
                   (world_of [short_row])))))
    = Some (Some "Error: gateway unavailable") /\
  Double.calculatePrices 150%float Double.tiny Double.tiny sell
  = {| Double.stopLossPrice := 150%float;
       Double.takeProfitPrice := 150%float |}.
Proof.
  split; [reflexivity|]. split; [reflexivity|]. split; [reflexivity|].
  split; [discriminate|]. split; [discriminate|].
  repeat split; vm_compute; reflexivity.
Qed.

(** ** Closed rows *)

(** C9, as the code has it.  Once a position's status is closed,
    [monitorPosition] returns [{triggered: false}] and leaves the whole
    world as it was (no price fetch, no write, no log line), and the
    DELETE route answers 400 "Position is already closed" without calling
    the brokerage or writing to the table. *)
Theorem C9_closed_row_is_skipped (this : PositionManagerService) (i : string)
  (w : World) (r : ManagedPosition) :
  find_row i (db w) = Some r ->
  status r = closed ->
  monitorPosition this i w = (Ok not_triggered, w) /\
  (forall reasonParam : option string,
     exists w' : World,
       DELETE this i reasonParam w = (Ok already_closed, w') /\
       db w' = db w /\
       calls w' = calls w).
Proof.
  intros Hr Hs. split.
  - apply (monitorPosition_skips _ _ _ _ Hr).
    unfold is_active_or_monitoring. now rewrite Hs.
  - intro reasonParam. unfold DELETE. unfold_ops. run.
    rewrite Hr, Hs. run. eexists. repeat split.
Qed.

Lemma C9_closed_row_is_skipped_witness :
  find_row "mp_0" (db (world_of [closed_row])) = Some closed_row /\
  status closed_row = closed /\
  monitorPosition (svc 140) "mp_0" (world_of [closed_row])
    = (Ok not_triggered, world_of [closed_row]).
Proof.
  split; [reflexivity|]. split; [reflexivity|].
  apply (C9_closed_row_is_skipped (svc 140) "mp_0" (world_of [closed_row])
           closed_row); reflexivity.
Defined.

(** The claim that no exposed operation changes a closed record does not
    hold: on a row whose status is closed, [closeManagedPosition] rewrites
    the closed-reason, the closed price and the exit-order reference,
    [updateManagedPosition] rewrites the current price, and
    [updateTrailingStop] raises the stop-loss price. *)
Lemma C9_closed_row_is_rewritten :
  find_row "mp_0" (db (world_of [closed_row])) = Some closed_row /\
  status closed_row = closed /\
  closed_reason closed_row = Some "take_profit_triggered" /\
  exit_order_id closed_row = Some "order-9" /\
  option_map closed_reason
    (find_row "mp_0"
       (db (snd (closeManagedPosition (svc 170) "mp_0" "manual_close" None
                   (world_of [closed_row])))))
    = Some (Some "manual_close") /\
  option_map exit_order_id
    (find_row "mp_0"
       (db (snd (closeManagedPosition (svc 170) "mp_0" "manual_close" None
                   (world_of [closed_row])))))
    = Some (Some "order-2") /\
  current_price closed_row = Some 158 /\
  option_map current_price
    (find_row "mp_0"
       (db (snd (updateManagedPosition "mp_0" 170 (world_of [closed_row])))))
    = Some (Some 170) /\
  stop_loss_price closed_row = 147 /\
  option_map (fun r => Qeq_bool (stop_loss_price r) (833 # 5))
    (find_row "mp_0"
       (db (snd (updateTrailingStop "mp_0" 170 (world_of [closed_row])))))
    = Some true.
Proof.
  repeat split.
Qed.

(** ** Creation *)

Lemma z_positive_false (x : Q) : x <= 0 -> z_positive x = false.
Proof. intro H. unfold z_positive. now apply Qlt_bool_false. Qed.

Lemma z_positive_max100_false (x : Q) :
  x <= 0 \/ 100 < x -> z_positive_max100 x = false.
Proof.
  unfold z_positive_max100. intros [H|H].
  - apply Qlt_bool_false in H. now rewrite H.
  - apply andb_false_intro2.
    destruct (Qle_bool x 100) eqn:E; [|reflexivity].
    apply Qle_bool_iff in E. lra.
Qed.

(** C8, as the code has it.  The validation of the creation parameters is
    the schema of the POST route: a request whose quantity is not positive,
    or whose stop-loss or take-profit percentage is outside (0, 100], is
    refused by the schema and answered 400 "Validation error" before
    [createManagedPosition] is called, the world being left as it was (no
    order placed, no record created). *)
Theorem C8_POST_rejects_malformed (service : PositionManagerService)
  (body : Body.t) (w : World) :
  Body.qty body <= 0 \/
  (Body.stopLossPct body <= 0 \/ 100 < Body.stopLossPct body) \/
  (Body.takeProfitPct body <= 0 \/ 100 < Body.takeProfitPct body) ->
  createManagedPositionSchema body = None /\
  POST service body w = (Ok validation_error, w).
Proof.
  intro H.
  assert (Hs : createManagedPositionSchema body = None).
  { unfold createManagedPositionSchema.
    destruct (z_side (Body.side body)); [|reflexivity].
    destruct H as [H|[H|H]].
    - rewrite (z_positive_false _ H).
      now rewrite !andb_false_r.
    - rewrite (z_positive_max100_false _ H).
      now rewrite !andb_false_r.
    - rewrite (z_positive_max100_false _ H).
      now rewrite !andb_false_r. }
  split; [exact Hs|]. unfold POST. now rewrite Hs.
Qed.

Lemma C8_POST_rejects_malformed_witness :
  (Body.qty bad_body <= 0 \/
   (Body.stopLossPct bad_body <= 0 \/ 100 < Body.stopLossPct bad_body) \/
   (Body.takeProfitPct bad_body <= 0 \/ 100 < Body.takeProfitPct bad_body)) /\
  createManagedPositionSchema bad_body = None /\
  POST (svc 150) bad_body empty_world = (Ok validation_error, empty_world).
Proof.
  split; [left; discriminate|].
  apply (C8_POST_rejects_malformed (svc 150) bad_body empty_world).
  left; discriminate.
Defined.

(** The claim that [createManagedPosition] refuses malformed parameters
    before any side effect does not hold: called with a quantity of -10 and
    a stop-loss percentage of 150, it raises nothing, sends the entry order
    to the brokerage and stores a row. *)
Lemma C8_service_does_not_validate :
  Params.qty bad_params <= 0 /\
  100 < Params.stopLossPct bad_params /\
  exists (position : ManagedPosition) (w' : World),
    createManagedPosition (svc 150) bad_params empty_world = (Ok position, w') /\
    db w' = [position] /\
    calls w' = [PlaceOrder (entry_request bad_params)].
Proof.
  split; [discriminate|]. split; [reflexivity|].
  do 2 eexists. repeat split.
Qed.




(** ** The monitoring cycle *)

Lemma insert_desc_perm (r : ManagedPosition) (l : list ManagedPosition) :
  Permutation (r :: l) (insert_desc r l).
Proof.
  induction l as [|x l IH]; cbn; [reflexivity|].
  destruct (Nat.leb (created_at x) (created_at r)); [reflexivity|].
  rewrite perm_swap. now apply perm_skip.
Qed.

Lemma sort_desc_perm (l : list ManagedPosition) : Permutation l (sort_desc l).
Proof.
  induction l as [|r l IH]; cbn; [reflexivity|].
  rewrite <- insert_desc_perm. now apply perm_skip.
Qed.

Lemma sort_desc_length (l : list ManagedPosition) :
  List.length (sort_desc l) = List.length l.
Proof. symmetry. apply Permutation_length, sort_desc_perm. Qed.

Lemma NoDup_ids_filter (f : ManagedPosition -> bool) (l : list ManagedPosition) :
  NoDup (map id l) -> NoDup (map id (filter f l)).
Proof.
  induction l as [|r l IH]; cbn; intro H; [constructor|].
  inversion H as [|? ? Hnot Hrest]; subst.
  destruct (f r); cbn; [|now apply IH].
  constructor; [|now apply IH].
  intro Hin. apply Hnot. apply in_map_iff in Hin.
  destruct Hin as (x & Hx & Hin). apply filter_In in Hin.
  apply in_map_iff. exists x. tauto.
Qed.

Lemma find_row_NoDup (rows : list ManagedPosition) (r : ManagedPosition) :
  NoDup (map id rows) -> In r rows -> find_row (id r) rows = Some r.
Proof.
  unfold find_row. induction rows as [|x rows IH]; cbn; intros Hnd Hin; [easy|].
  inversion Hnd as [|? ? Hnot Hrest]; subst.
  destruct Hin as [->|Hin]; [now rewrite String.eqb_refl|].
  destruct (String.eqb_spec (id x) (id r)) as [E|E]; [|now apply IH].
  exfalso. apply Hnot. rewrite E. now apply in_map.
Qed.

(** *** What one evaluation leaves alone *)

Lemma priced_frame (i j : string) (r : ManagedPosition) (price : Q) (w : World) :
  j <> i -> find_row i (db (priced j r price w)) = find_row i (db w).
Proof. intro H. cbn -[find_row update_rows]. now apply find_row_update_other. Qed.

Lemma closeManagedPosition_frame (this : PositionManagerService)
  (i j reason : string) (closedPrice : option Q) (w : World) :
  j <> i ->
  find_row i (db (snd (closeManagedPosition this j reason closedPrice w)))
  = find_row i (db w).
Proof.
  intro H.
  destruct (find_row j (db w)) as [r|] eqn:Hr.
  - destruct (closePosition (tradingService this) (now w) (symbol r))
      as [o|e] eqn:Hc.
    + rewrite (closeManagedPosition_succeeds _ _ _ _ _ _ _ Hr Hc).
      cbn -[find_row update_rows]. now apply find_row_update_other.
    + rewrite (closeManagedPosition_fails _ _ _ _ _ _ _ Hr Hc).
      cbn -[find_row update_rows]. now apply find_row_update_other.
  - unfold closeManagedPosition. unfold_ops. now rewrite Hr.
Qed.

Lemma updateTrailingStop_frame (i j : string) (price : Q) (w : World) :
  j <> i ->
  find_row i (db (snd (updateTrailingStop j price w))) = find_row i (db w).
Proof.
  intro H.
  destruct (find_row j (db w)) as [r|] eqn:Hr.
  - destruct (Qlt_le_dec (stop_loss_price r) (trailing_candidate r price))
      as [Hlt|Hle].
    + rewrite (updateTrailingStop_raises _ _ _ _ Hr Hlt).
      cbn -[find_row update_rows]. now apply find_row_update_other.
    + now rewrite (updateTrailingStop_keeps _ _ _ _ Hr Hle).
  - unfold updateTrailingStop. unfold_ops. now rewrite Hr.
Qed.

Lemma after_close_db (closing : Outcome ManagedPosition * World)
  (result : MonitorResult) :
  db (snd (after_close closing result)) = db (snd closing).
Proof. now destruct closing as [[c|e] w]. Qed.

Lemma monitorPosition_frame (this : PositionManagerService) (i j : string)
  (w : World) :
  j <> i ->
  find_row i (db (snd (monitorPosition this j w))) = find_row i (db w).
Proof.
  intro H.
  destruct (find_row j (db w)) as [r|] eqn:Hr;
    [|now rewrite (monitorPosition_missing _ _ _ Hr)].
  destruct (is_active_or_monitoring r) eqn:Hs;
    [|now rewrite (monitorPosition_skips _ _ _ _ Hr Hs)].
  destruct (getSnapshot (dataService this) (now w) (symbol r))
    as [snapshot|e] eqn:Hsnap;
    [|now rewrite (monitorPosition_feed_throws _ _ _ _ _ Hr Hs Hsnap)].
  destruct (truthy (snapshot_price snapshot)) eqn:Ht;
    [|now rewrite (monitorPosition_no_price _ _ _ _ _ Hr Hs Hsnap Ht)].
  destruct (snapshot_price snapshot) as [price|] eqn:Hp; [|discriminate].
  rewrite (monitorPosition_priced _ _ _ _ _ _ Hr Hs Hsnap Hp Ht).
  destruct (Qle_bool price (stop_loss_price r)).
  { rewrite after_close_db, closeManagedPosition_frame by assumption.
    now apply priced_frame. }
  destruct (Qle_bool (take_profit_price r) price).
  { rewrite after_close_db, closeManagedPosition_frame by assumption.
    now apply priced_frame. }
  destruct (trailing_stop r); cbn [snd].
  - rewrite updateTrailingStop_frame by assumption. now apply priced_frame.
  - now apply priced_frame.
Qed.

Lemma after_turn_db (this : PositionManagerService) (position : ManagedPosition)
  (w : World) :
  db (after_turn this position w)
  = db (snd (monitorPosition this (id position) w)).
Proof.
  unfold after_turn.
  now destruct (monitorPosition this (id position) w) as [[res|e] w1].
Qed.

Lemma turns_frame (this : PositionManagerService) (i : string)
  (positions : list ManagedPosition) (w : World) :
  ~ In i (map id positions) ->
  find_row i (db (snd (turns this positions w))) = find_row i (db w).
Proof.
  revert w. induction positions as [|q rest IH]; intros w Hnot; [reflexivity|].
  cbn [turns snd]. cbn in Hnot.
  rewrite IH by tauto.
  rewrite after_turn_db. apply monitorPosition_frame. tauto.
Qed.

(** *** What one evaluation stores *)

Lemma monitorPosition_stores_price (this : PositionManagerService) (i : string)
  (w : World) (r : ManagedPosition) (snapshot : Snapshot) (price : Q) :
  find_row i (db w) = Some r ->
  is_active_or_monitoring r = true ->
  getSnapshot (dataService this) (now w) (symbol r) = Ok snapshot ->
  snapshot_price snapshot = Some price ->
  truthy (Some price) = true ->
  exists r' : ManagedPosition,
    find_row i (db (snd (monitorPosition this i w))) = Some r' /\
    current_price r' = Some price.
Proof.
  intros Hr Hs Hsnap Hp Ht.
  rewrite (monitorPosition_priced _ _ _ _ _ _ Hr Hs Hsnap Hp Ht).
  assert (Hclose : forall reason l result,
            exists r' : ManagedPosition,
              find_row i
                (db (snd (after_close
                            (closeManagedPosition this i reason (Some price)
                               (add_log l (priced i r price w))) result)))
              = Some r' /\ current_price r' = Some price).
  { intros reason l result.
    destruct (closePosition (tradingService this) (S (now w)) (symbol r))
      as [o|e] eqn:Hc.
    - destruct (triggered_close_succeeds this i reason w r price l o result
                  Hr Ht Hc) as (w' & r' & H1 & H2 & _ & _ & _ & _ & H3).
      exists r'. now rewrite H1.
    - destruct (triggered_close_fails this i reason w r price l e result
                  Hr Hc) as (w' & r' & H1 & H2 & _ & _ & _ & H3).
      exists r'. now rewrite H1. }
  destruct (Qle_bool price (stop_loss_price r)); [apply Hclose|].
  destruct (Qle_bool (take_profit_price r) price); [apply Hclose|].
  destruct (find_row_priced i r price w warn_stop_loss Hr)
    as (r1 & _ & Hr1 & _ & _ & _ & _ & _ & Hcur).
  destruct (trailing_stop r); cbn [snd].
  - destruct (updateTrailingStop_row i price _ r1 Hr1) as (r2 & Hr2 & _ & Hcur2).
    exists r2. split; [exact Hr2 | congruence].
  - exists r1. now split.
Qed.

(** *** The loop *)

Lemma monitor_loop_turns (this : PositionManagerService)
  (positions : list ManagedPosition) (w : World) (nTriggered nErrors : nat) :
  monitor_loop this positions nTriggered nErrors w =
    (Ok ((nTriggered + count_triggered (fst (turns this positions w)))%nat,
         (nErrors + count_errors (fst (turns this positions w)))%nat),
     snd (turns this positions w)).
Proof.
  revert w nTriggered nErrors.
  induction positions as [|q rest IH]; intros w nT nE.
  - cbn. now rewrite !Nat.add_0_r.
  - cbn [monitor_loop turns fst snd]. unfold bind at 1.
    unfold try_catch, bind, after_turn, count_triggered, count_errors.
    cbn [filter]. unfold reported_trigger at 1, raised at 1. cbn [step_outcome].
    destruct (monitorPosition this (id q) w) as [[result|e] w1]; cbn [fst snd].
    + destruct (triggered result); cbn [ret fst snd List.length];
        rewrite IH; unfold count_triggered, count_errors;
        cbn [Nat.add]; rewrite ?Nat.add_succ_r; reflexivity.
    + cbn [ret fst snd List.length logger_error logger_write].
      rewrite IH. unfold count_triggered, count_errors.
      cbn [Nat.add]; rewrite ?Nat.add_succ_r; reflexivity.
Qed.

Lemma turns_positions (this : PositionManagerService)
  (positions : list ManagedPosition) (w : World) :
  map step_position (fst (turns this positions w)) = positions.
Proof.
  revert w. induction positions as [|q rest IH]; intro w; [reflexivity|].
  cbn. now rewrite IH.
Qed.

Lemma turns_outcomes (this : PositionManagerService)
  (positions : list ManagedPosition) (w : World) (s : Step) :
  In s (fst (turns this positions w)) ->
  step_outcome s
  = fst (monitorPosition this (id (step_position s)) (step_world s)).
Proof.
  revert w. induction positions as [|q rest IH]; intros w Hin; [easy|].
  cbn in Hin. destruct Hin as [<-|Hin]; [reflexivity|].
  now apply (IH _ Hin).
Qed.

Lemma turns_store_prices (this : PositionManagerService)
  (positions : list ManagedPosition) (w : World) :
  NoDup (map id positions) ->
  (forall q : ManagedPosition,
     In q positions ->
     find_row (id q) (db w) = Some q /\ is_active_or_monitoring q = true) ->
  forall (s : Step) (snapshot : Snapshot) (price : Q),
    In s (fst (turns this positions w)) ->
    getSnapshot (dataService this) (now (step_world s))
      (symbol (step_position s)) = Ok snapshot ->
    snapshot_price snapshot = Some price ->
    truthy (Some price) = true ->
    exists r' : ManagedPosition,
      find_row (id (step_position s)) (db (snd (turns this positions w)))
      = Some r' /\
      current_price r' = Some price.
Proof.
  revert w. induction positions as [|q rest IH]; intros w Hnd Hrows s snapshot
    price Hin Hsnap Hp Ht; [easy|].
  cbn [map] in Hnd. inversion Hnd as [|? ? Hnot Hrest]; subst.
  cbn [turns fst snd] in *. destruct Hin as [<-|Hin].
  - cbn [step_position step_world] in *.
    destruct (Hrows q (or_introl eq_refl)) as [Hq Hopen].
    rewrite turns_frame by assumption. rewrite after_turn_db.
    apply (monitorPosition_stores_price _ _ _ _ _ _ Hq Hopen Hsnap Hp Ht).
  - refine (IH (after_turn this q w) Hrest _ s snapshot price Hin Hsnap Hp Ht).
    intros q' Hq'. destruct (Hrows q' (or_intror Hq')) as [Hfind Hopen].
    split; [|exact Hopen].
    rewrite after_turn_db, monitorPosition_frame; [exact Hfind|].
    intro E. apply Hnot. rewrite E. now apply in_map.
Qed.

(** Scenario D: a cycle over ten open positions where the price fetch of
    the seventh throws (and the third hits its stop-loss): the result is
    total 10, triggered 1, errors 1; the seventh keeps its old current
    price, the nine others have the price just fetched. *)
Example scenario_D :
  fst (monitorAllPositions svc_one_down (world_of ten_rows))
    = Ok {| total := 10; triggered_count := 1; errors := 1 |} /\
  map (fun r => (id r, current_price r))
    (db (snd (monitorAllPositions svc_one_down (world_of ten_rows))))
    = [ ("mp_0", Some 150); ("mp_1", Some 150); ("mp_2", Some 150);
        ("mp_3", Some 150); ("mp_4", Some 150); ("mp_5", Some 150);
        ("mp_6", Some 140); ("mp_7", Some 150); ("mp_8", Some 150);
        ("mp_9", Some 150) ].
Proof. split; vm_compute; reflexivity. Qed.

(** C6. [monitorAllPositions] fetches the positions that are active or
    monitoring and evaluates each of them with [monitorPosition], in
    order, each in the world its predecessors left: an evaluation that
    throws is caught, logged and counted, and the following positions are
    evaluated all the same.  The result reports total = number of
    positions fetched, triggered = number of evaluations that returned
    triggered = true, errors = number of evaluations that threw; and every
    position whose price fetch gave a price has that price as its stored
    current price at the end of the cycle. *)
Theorem C6_cycle_isolates_failures (this : PositionManagerService) (w : World) :
  NoDup (map id (db w)) ->
  exists (fetched : list ManagedPosition) (steps : list Step) (w_end : World),
    getActiveManagedPositions w = (Ok fetched, w) /\
    (forall q : ManagedPosition,
       In q fetched <->
       In q (db w) /\ (status q = active \/ status q = monitoring)) /\
    List.length fetched
      = List.length (filter is_active_or_monitoring (db w)) /\
    turns this fetched (add_log info_cycle_start w) = (steps, w_end) /\
    monitorAllPositions this w =
      (Ok {| total := List.length fetched;
             triggered_count := count_triggered steps;
             errors := count_errors steps |},
       add_log info_cycle_done w_end) /\
    map step_position steps = fetched /\
    (forall s : Step,
       In s steps ->
       step_outcome s
       = fst (monitorPosition this (id (step_position s)) (step_world s))) /\
    (forall (s : Step) (snapshot : Snapshot) (price : Q),
       In s steps ->
       getSnapshot (dataService this) (now (step_world s))
         (symbol (step_position s)) = Ok snapshot ->
       snapshot_price snapshot = Some price ->
       truthy (Some price) = true ->
       exists r' : ManagedPosition,
         find_row (id (step_position s)) (db w_end) = Some r' /\
         current_price r' = Some price).
Proof.
  intro Hnd.
  set (fetched := sort_desc (filter is_active_or_monitoring (db w))).
  set (w0 := add_log info_cycle_start w).
  assert (Hin : forall q, In q fetched <->
                  In q (db w) /\ (status q = active \/ status q = monitoring)).
  { intro q. unfold fetched.
    rewrite <- open_iff, <- filter_In.
    split; apply Permutation_in;
      [symmetry|]; apply sort_desc_perm. }
  exists fetched, (fst (turns this fetched w0)), (snd (turns this fetched w0)).
  split; [reflexivity|]. split; [exact Hin|].
  split; [apply sort_desc_length|].
  split; [now destruct (turns this fetched w0)|].
  split.
  { unfold monitorAllPositions, getActiveManagedPositions, prisma_findMany.
    unfold bind at 1. unfold logger_info, logger_write. unfold bind at 1.
    fold fetched. fold w0. unfold bind at 1.
    rewrite monitor_loop_turns. reflexivity. }
  split; [apply turns_positions|].
  split; [intros s Hs; now apply (turns_outcomes this fetched w0)|].
  intros s snapshot price Hs Hsnap Hp Ht.
  refine (turns_store_prices this fetched w0 _ _ s snapshot price Hs Hsnap Hp Ht).
  - unfold fetched.
    apply (Permutation_NoDup (l := map id (filter is_active_or_monitoring (db w)))).
    + apply Permutation_map, sort_desc_perm.
    + now apply NoDup_ids_filter.
  - intros q Hq. apply Hin in Hq. destruct Hq as [Hq Hopen].
    split; [|now apply open_iff].
    now apply find_row_NoDup.
Qed.

Lemma ten_rows_ids : NoDup (map id (db (world_of ten_rows))).
Proof.
  cbn. repeat (constructor; [cbn; intuition discriminate|]). constructor.
Qed.

Lemma C6_cycle_isolates_failures_witness :
  NoDup (map id (db (world_of ten_rows))) /\
  exists (fetched : list ManagedPosition) (steps : list Step) (w_end : World),
    getActiveManagedPositions (world_of ten_rows)
      = (Ok fetched, world_of ten_rows) /\
    (forall q : ManagedPosition,
       In q fetched <->
       In q (db (world_of ten_rows)) /\
       (status q = active \/ status q = monitoring)) /\
    List.length fetched
      = List.length (filter is_active_or_monitoring (db (world_of ten_rows))) /\
    turns svc_one_down fetched (add_log info_cycle_start (world_of ten_rows))
      = (steps, w_end) /\
    monitorAllPositions svc_one_down (world_of ten_rows) =
      (Ok {| total := List.length fetched;
             triggered_count := count_triggered steps;
             errors := count_errors steps |},
       add_log info_cycle_done w_end) /\
    map step_position steps = fetched /\
    (forall s : Step,
       In s steps ->
       step_outcome s
       = fst (monitorPosition svc_one_down (id (step_position s))
                (step_world s))) /\
    (forall (s : Step) (snapshot : Snapshot) (price : Q),
       In s steps ->
       getSnapshot (dataService svc_one_down) (now (step_world s))
         (symbol (step_position s)) = Ok snapshot ->
       snapshot_price snapshot = Some price ->
       truthy (Some price) = true ->
       exists r' : ManagedPosition,
         find_row (id (step_position s)) (db w_end) = Some r' /\
         current_price r' = Some price).
Proof.
  split; [exact ten_rows_ids|].
  apply (C6_cycle_isolates_failures svc_one_down (world_of ten_rows)).
  exact ten_rows_ids.
Defined.

(** * Further properties *)

(** ** [withRetry] *)

Lemma count_or_pos (o : option nat) (d : nat) :
  (0 < d)%nat -> (0 < count_or o d)%nat.
Proof. destruct o as [[|n]|]; cbn; lia. Qed.

Lemma retry_attempts_pos (options : RetryOptions.t) :
  (0 < retry_attempts options)%nat.
Proof. apply count_or_pos. lia. Qed.

Lemma waits_before_succ (backoff : Backoff) (delay k : nat) :
  waits_before backoff delay (S k)
  = waitTime backoff delay (S k) :: waits_before backoff delay k.
Proof.
  unfold waits_before. rewrite seq_S, map_app, rev_app_distr. reflexivity.
Qed.

(** The loop, from any attempt on, when the calls fail up to a success. *)
Lemma retry_from_success {T : Type} (answer : nat -> Outcome T)
  (n d : nat) (b : Backoff) (t : T) (k : nat) :
  forall (remaining attempt : nat) (last : option Error) (s : Attempts),
    (attempt + remaining = S n)%nat ->
    (k < remaining)%nat ->
    (forall j : nat, (j < k)%nat -> exists e, answer (made s + j)%nat = Throw e) ->
    answer (made s + k)%nat = Ok t ->
    retry_from record_wait (scripted answer) n d b remaining attempt last s
    = (Resolved t,
       {| made := S (made s + k);
          waited := rev (map (waitTime b d) (seq attempt k)) ++ waited s |}).
Proof.
  induction k as [|k IH]; intros remaining attempt last s Hsum Hk Hfail Hok.
  - destruct remaining as [|remaining]; [lia|].
    cbn. unfold scripted. rewrite Nat.add_0_r in *. now rewrite Hok.
  - destruct remaining as [|remaining]; [lia|].
    cbn [retry_from]. unfold scripted at 1.
    destruct (Hfail 0%nat ltac:(lia)) as [e He]. rewrite Nat.add_0_r in He.
    rewrite He.
    destruct (Nat.eqb_spec attempt n) as [E|E]; [lia|].
    rewrite (IH remaining (S attempt) (Some e)); cbn [made waited record_wait].
    + f_equal. f_equal; [lia|].
      cbn [seq map rev]. now rewrite <- app_assoc.
    + lia.
    + lia.
    + intros j Hj. destruct (Hfail (S j) ltac:(lia)) as [e' He'].
      exists e'. now rewrite <- He', Nat.add_succ_comm.
    + now rewrite <- Hok, Nat.add_succ_comm.
Qed.

(** The loop, from any attempt on, when every call left fails. *)
Lemma retry_from_exhausted {T : Type} (answer : nat -> Outcome T)
  (n d : nat) (b : Backoff) :
  forall (remaining attempt : nat) (last : option Error) (s : Attempts),
    (attempt + remaining = S n)%nat ->
    (0 < remaining)%nat ->
    (forall j : nat, (j < remaining)%nat ->
                     exists e, answer (made s + j)%nat = Throw e) ->
    exists e : Error,
      answer (made s + remaining - 1)%nat = Throw e /\
      retry_from (T := T) record_wait (scripted answer) n d b remaining attempt
        last s
      = (Rejected (retry_failed n (Some e)),
         {| made := (made s + remaining)%nat;
            waited := rev (map (waitTime b d) (seq attempt (remaining - 1)))
                      ++ waited s |}).
Proof.
  induction remaining as [|remaining IH]; intros attempt last s Hsum Hpos Hfail;
    [lia|].
  cbn [retry_from]. unfold scripted at 1.
  destruct (Hfail 0%nat ltac:(lia)) as [e He]. rewrite Nat.add_0_r in He.
  rewrite He.
  destruct (Nat.eqb_spec attempt n) as [E|E].
  - assert (remaining = 0)%nat by lia. subst remaining.
    exists e. split; [now replace (made s + 1 - 1)%nat with (made s) by lia|].
    cbn. now rewrite Nat.add_1_r.
  - destruct (IH (S attempt) (Some e)
                (record_wait (waitTime b d attempt)
                   {| made := S (made s); waited := waited s |}))
      as (e' & He' & Hrun); [lia | lia | |].
    + intros j Hj. cbn [made record_wait].
      destruct (Hfail (S j) ltac:(lia)) as [e' He'].
      exists e'. now rewrite <- He', Nat.add_succ_comm.
    + cbn [made waited record_wait] in He', Hrun.
      exists e'. split.
      * rewrite <- He'. f_equal. lia.
      * rewrite Hrun. f_equal. f_equal; [lia|].
        destruct remaining as [|remaining]; [lia|].
        cbn [Nat.sub seq map rev]. rewrite Nat.sub_0_r.
        now rewrite <- app_assoc.
Qed.

(** X1. [withRetry] resolves with the value of the first call that
    succeeds: when the first [k] calls of the operation throw and the next
    one returns [t], with [k] below the number of attempts allowed, it
    returns [t] after exactly [k + 1] calls, having waited once between
    consecutive calls, with the waits of the backoff in force. *)
Theorem withRetry_first_success {T : Type} (answer : nat -> Outcome T)
  (options : RetryOptions.t) (k : nat) (t : T) :
  (k < retry_attempts options)%nat ->
  (forall j : nat, (j < k)%nat -> exists e, answer j = Throw e) ->
  answer k = Ok t ->
  withRetry record_wait (scripted answer) options no_attempt
  = (Resolved t,
     {| made := S k;
        waited := waits_before (retry_backoff options) (retry_delay options) k |}).
Proof.
  intros Hk Hfail Hok. unfold withRetry.
  fold (retry_attempts options) (retry_delay options) (retry_backoff options).
  rewrite (retry_from_success answer _ _ _ t k); cbn [made waited no_attempt].
  - unfold waits_before. now rewrite app_nil_r.
  - lia.
  - exact Hk.
  - exact Hfail.
  - exact Hok.
Qed.

Lemma withRetry_first_success_witness :
  (1 < retry_attempts default_options)%nat /\
  (forall j : nat, (j < 1)%nat -> exists e, flaky j = Throw e) /\
  flaky 1 = Ok 7%nat /\
  withRetry record_wait (scripted flaky) default_options no_attempt
  = (Resolved 7%nat,
     {| made := 2;
        waited := waits_before (retry_backoff default_options)
                    (retry_delay default_options) 1 |}).
Proof.
  assert (H : forall j : nat, (j < 1)%nat -> exists e, flaky j = Throw e).
  { intros j Hj. exists feed_down. destruct j; [reflexivity | lia]. }
  split; [cbn; lia|]. split; [exact H|]. split; [reflexivity|].
  apply (withRetry_first_success flaky default_options 1 7%nat);
    [cbn; lia | exact H | reflexivity].
Defined.

Lemma withRetry_exhausted {T : Type} (answer : nat -> Outcome T)
  (options : RetryOptions.t) :
  (forall j : nat, (j < retry_attempts options)%nat ->
                   exists e, answer j = Throw e) ->
  exists e : Error,
    answer (retry_attempts options - 1)%nat = Throw e /\
    withRetry record_wait (scripted answer) options no_attempt
    = (Rejected
         {| retry_message :=
              "Operation failed after " ++ decimal (retry_attempts options)
              ++ " attempts";
            attempts := retry_attempts options;
            lastError := Some e |},
       {| made := retry_attempts options;
          waited := waits_before (retry_backoff options) (retry_delay options)
                      (retry_attempts options - 1) |}).
Proof.
  intro Hfail. pose proof (retry_attempts_pos options) as Hpos.
  destruct (retry_from_exhausted answer (retry_attempts options)
              (retry_delay options) (retry_backoff options)
              (retry_attempts options) 1 None no_attempt)
    as (e & He & Hrun); [lia | exact Hpos | exact Hfail |].
  cbn [made waited no_attempt Nat.add] in He, Hrun.
  exists e. split; [exact He|].
  unfold withRetry.
  fold (retry_attempts options) (retry_delay options) (retry_backoff options).
  rewrite Hrun. unfold waits_before, retry_failed. now rewrite app_nil_r.
Qed.

(** X2. [withRetry] gives up after the number of attempts allowed: when
    every one of them throws, it rejects with a [RetryError] whose message
    is "Operation failed after n attempts", whose [attempts] is n and whose
    [lastError] is the error of the last call; the operation has been
    called exactly n times and there is no wait after the last call. *)
Theorem withRetry_gives_up {T : Type} (answer : nat -> Outcome T)
  (options : RetryOptions.t) :
  (forall j : nat, (j < retry_attempts options)%nat ->
                   exists e, answer j = Throw e) ->
  exists e : Error,
    answer (retry_attempts options - 1)%nat = Throw e /\
    withRetry record_wait (scripted answer) options no_attempt
    = (Rejected
         {| retry_message :=
              "Operation failed after " ++ decimal (retry_attempts options)
              ++ " attempts";
            attempts := retry_attempts options;
            lastError := Some e |},
       {| made := retry_attempts options;
          waited := waits_before (retry_backoff options) (retry_delay options)
                      (retry_attempts options - 1) |}).
Proof. exact (withRetry_exhausted answer options). Qed.

Lemma withRetry_gives_up_witness :
  (forall j : nat, (j < retry_attempts default_options)%nat ->
                   exists e, always_down j = Throw e) /\
  exists e : Error,
    always_down (retry_attempts default_options - 1)%nat = Throw e /\
    withRetry record_wait (scripted always_down) default_options no_attempt
    = (Rejected
         {| retry_message :=
              "Operation failed after "
              ++ decimal (retry_attempts default_options) ++ " attempts";
            attempts := retry_attempts default_options;
            lastError := Some e |},
       {| made := retry_attempts default_options;
          waited := waits_before (retry_backoff default_options)
                      (retry_delay default_options)
                      (retry_attempts default_options - 1) |}).
Proof.
  assert (H : forall j : nat, (j < retry_attempts default_options)%nat ->
                              exists e, always_down j = Throw e).
  { intros j _. now exists feed_down. }
  split; [exact H|].
  apply (withRetry_gives_up always_down default_options). exact H.
Defined.

Lemma retry_from_bounded {T : Type} (answer : nat -> Outcome T)
  (n d : nat) (b : Backoff) :
  forall (remaining attempt : nat) (last : option Error) (s : Attempts),
    (made (snd (retry_from record_wait (scripted answer) n d b remaining
                  attempt last s))
     <= made s + remaining)%nat.
Proof.
  induction remaining as [|remaining IH]; intros attempt last s; cbn [retry_from].
  - cbn. lia.
  - unfold scripted at 1. destruct (answer (made s)) as [t|e]; [cbn; lia|].
    destruct (Nat.eqb attempt n); [cbn; lia|].
    etransitivity; [apply IH|]. cbn. lia.
Qed.

Lemma retry_from_mono {T : Type} (answer : nat -> Outcome T)
  (n d : nat) (b : Backoff) :
  forall (remaining attempt : nat) (last : option Error) (s : Attempts),
    (made s
     <= made (snd (retry_from record_wait (scripted answer) n d b remaining
                     attempt last s)))%nat.
Proof.
  induction remaining as [|remaining IH]; intros attempt last s; cbn [retry_from].
  - cbn. lia.
  - unfold scripted at 1. destruct (answer (made s)) as [t|e]; [cbn; lia|].
    destruct (Nat.eqb attempt n); [cbn; lia|].
    etransitivity; [|apply IH]. cbn. lia.
Qed.

(** X3. Whatever the operation answers, [withRetry] calls it at least once
    and at most as many times as attempts are allowed. *)
Theorem withRetry_calls_bounded {T : Type} (answer : nat -> Outcome T)
  (options : RetryOptions.t) :
  (1 <= made (snd (withRetry record_wait (scripted answer) options no_attempt))
   <= retry_attempts options)%nat.
Proof.
  split.
  - unfold withRetry.
    pose proof (retry_attempts_pos options) as Hpos.
    fold (retry_attempts options).
    destruct (retry_attempts options) as [|n] eqn:E; [lia|].
    cbn [retry_from]. unfold scripted at 1. cbn [made no_attempt].
    destruct (answer 0%nat) as [t|e]; [cbn; lia|].
    destruct (Nat.eqb 1 (S n)); [cbn; lia|].
    etransitivity; [|apply retry_from_mono]. cbn. lia.
  - unfold withRetry. fold (retry_attempts options).
    etransitivity; [apply retry_from_bounded|]. cbn. lia.
Qed.

Lemma list_sum_cons (a : nat) (l : list nat) :
  list_sum (a :: l) = (a + list_sum l)%nat.
Proof. reflexivity. Qed.

Lemma waits_exponential_sum (d k : nat) :
  (list_sum (waits_before exponential d k) = d * (2 ^ k - 1))%nat.
Proof.
  induction k as [|k IH]; [cbn; lia|].
  rewrite waits_before_succ, list_sum_cons, IH.
  unfold waitTime. replace (S k - 1)%nat with k by lia.
  cbn [Nat.pow]. assert (1 <= 2 ^ k)%nat by (apply Nat.neq_0_lt_0, Nat.pow_nonzero; lia).
  nia.
Qed.

Lemma waits_linear_sum (d k : nat) :
  (2 * list_sum (waits_before linear d k) = d * (k * (k + 1)))%nat.
Proof.
  induction k as [|k IH]; [cbn; lia|].
  rewrite waits_before_succ, list_sum_cons. unfold waitTime. nia.
Qed.

(** X4. When [withRetry] gives up, the time it has spent waiting is
    delay * (2^(n-1) - 1) under exponential backoff (the default) and
    delay * (n-1) * n / 2 under linear backoff, n being the number of
    attempts allowed: with the defaults, 1000 + 2000 milliseconds. *)
Theorem withRetry_total_wait {T : Type} (answer : nat -> Outcome T)
  (options : RetryOptions.t) :
  (forall j : nat, (j < retry_attempts options)%nat ->
                   exists e, answer j = Throw e) ->
  match retry_backoff options with
  | exponential =>
      list_sum (waited (snd (withRetry record_wait (scripted answer) options
                               no_attempt)))
      = (retry_delay options * (2 ^ (retry_attempts options - 1) - 1))%nat
  | linear =>
      (2 * list_sum (waited (snd (withRetry record_wait (scripted answer)
                                    options no_attempt))))%nat
      = (retry_delay options
         * ((retry_attempts options - 1) * retry_attempts options))%nat
  end.
Proof.
  intro Hfail.
  destruct (withRetry_exhausted answer options Hfail) as (e & _ & Hrun).
  rewrite Hrun. cbn [snd waited].
  pose proof (retry_attempts_pos options) as Hpos.
  destruct (retry_backoff options).
  - rewrite waits_linear_sum.
    replace (retry_attempts options - 1 + 1)%nat with (retry_attempts options)
      by lia.
    reflexivity.
  - apply waits_exponential_sum.
Qed.

Lemma withRetry_total_wait_witness :
  (forall j : nat, (j < retry_attempts default_options)%nat ->
                   exists e, always_down j = Throw e) /\
  list_sum (waited (snd (withRetry record_wait (scripted always_down)
                           default_options no_attempt)))
  = 3000%nat.
Proof.
  assert (H : forall j : nat, (j < retry_attempts default_options)%nat ->
                              exists e, always_down j = Throw e).
  { intros j _. now exists feed_down. }
  split; [exact H|].
  exact (withRetry_total_wait always_down default_options H).
Defined.

(** ** Listing and deleting *)

Lemma status_eqb_eq (a b : ManagedPositionStatus) :
  status_eqb a b = true <-> a = b.
Proof. destruct a, b; cbn; split; intro H; try reflexivity; discriminate. Qed.

Lemma insert_desc_sorted (r : ManagedPosition) (l : list ManagedPosition) :
  StronglySorted newer_or_same l ->
  StronglySorted newer_or_same (insert_desc r l).
Proof.
  induction l as [|x l IH]; intro Hs; cbn.
  - constructor; constructor.
  - inversion Hs as [|? ? Hl Hx]; subst.
    destruct (Nat.leb_spec (created_at x) (created_at r)) as [Hle|Hgt].
    + constructor; [exact Hs|]. constructor; [exact Hle|].
      eapply Forall_impl; [|exact Hx].
      intros a Ha. unfold newer_or_same in *. lia.
    + constructor; [now apply IH|].
      apply (Permutation_Forall (insert_desc_perm r l)).
      constructor; [unfold newer_or_same; lia | exact Hx].
Qed.

Lemma sort_desc_sorted (l : list ManagedPosition) :
  StronglySorted newer_or_same (sort_desc l).
Proof.
  induction l as [|r l IH]; cbn; [constructor | now apply insert_desc_sorted].
Qed.

Lemma firstn_In {A : Type} (n : nat) (l : list A) (a : A) :
  In a (firstn n l) -> In a l.
Proof.
  revert n. induction l as [|x l IH]; intros n H; destruct n; cbn in *;
    try contradiction.
  destruct H as [H|H]; [now left | right; now apply (IH n)].
Qed.

Lemma firstn_sorted (n : nat) (l : list ManagedPosition) :
  StronglySorted newer_or_same l ->
  StronglySorted newer_or_same (firstn n l).
Proof.
  revert n. induction l as [|x l IH]; intros n Hs; destruct n; cbn;
    try constructor.
  - inversion Hs; subst. now apply IH.
  - inversion Hs as [|? ? _ Hx]; subst.
    rewrite Forall_forall in *. intros a Ha. apply Hx.
    now apply firstn_In in Ha.
Qed.

Lemma matches_sound (byStatus : option ManagedPositionStatus)
  (bySymbol : option string) (r : ManagedPosition) :
  matches byStatus bySymbol r = true ->
  (forall s, byStatus = Some s -> status r = s) /\
  (forall sym, bySymbol = Some sym -> sym <> "" -> symbol r = sym).
Proof.
  unfold matches. intro H. apply andb_true_iff in H. destruct H as [H1 H2].
  split.
  - intros s ->. now apply status_eqb_eq.
  - intros sym -> Hne.
    destruct (String.eqb_spec sym ""); [contradiction|].
    now apply String.eqb_eq.
Qed.

(** X5. [getManagedPositions] reads without writing: it returns at most
    [limit] rows (100 when no limit is given), newest first, each of them a
    row of the table that has the requested status and the requested
    symbol, an absent or empty filter asking for nothing; and when no more
    than [limit] rows match, it returns every matching row. *)
Theorem getManagedPositions_lists (params : option Query.t) (w : World) :
  exists rows : list ManagedPosition,
    getManagedPositions params w = (Ok rows, w) /\
    (List.length rows <= query_limit params)%nat /\
    StronglySorted newer_or_same rows /\
    (forall r : ManagedPosition,
       In r rows ->
       In r (db w) /\
       (forall s, query_status params = Some s -> status r = s) /\
       (forall sym, query_symbol params = Some sym -> sym <> "" ->
                    symbol r = sym)) /\
    ((List.length
        (filter (matches (query_status params) (query_symbol params)) (db w))
      <= query_limit params)%nat ->
     forall r : ManagedPosition,
       In r (db w) ->
       matches (query_status params) (query_symbol params) r = true ->
       In r rows).
Proof.
  eexists. split; [reflexivity|].
  fold (query_status params) (query_symbol params) (query_limit params).
  split; [apply firstn_le_length|].
  split; [apply firstn_sorted, sort_desc_sorted|].
  split.
  - intros r Hin. apply firstn_In in Hin.
    apply (Permutation_in _ (Permutation_sym (sort_desc_perm _))) in Hin.
    apply filter_In in Hin. destruct Hin as [Hin Hm].
    split; [exact Hin | now apply matches_sound].
  - intros Hlen r Hin Hm.
    rewrite firstn_all2 by (now rewrite sort_desc_length).
    apply (Permutation_in _ (sort_desc_perm _)).
    apply filter_In. now split.
Qed.

Lemma getManagedPositions_lists_witness :
  exists rows : list ManagedPosition,
    getManagedPositions monitoring_query (world_of ten_rows)
      = (Ok rows, world_of ten_rows) /\
    (List.length rows <= query_limit monitoring_query)%nat /\
    StronglySorted newer_or_same rows /\
    (forall r : ManagedPosition,
       In r rows ->
       In r (db (world_of ten_rows)) /\
       (forall s, query_status monitoring_query = Some s -> status r = s) /\
       (forall sym, query_symbol monitoring_query = Some sym -> sym <> "" ->
                    symbol r = sym)) /\
    ((List.length
        (filter (matches (query_status monitoring_query)
                   (query_symbol monitoring_query)) (db (world_of ten_rows)))
      <= query_limit monitoring_query)%nat ->
     forall r : ManagedPosition,
       In r (db (world_of ten_rows)) ->
       matches (query_status monitoring_query)
         (query_symbol monitoring_query) r = true ->
       In r rows).
Proof.
  exact (getManagedPositions_lists monitoring_query (world_of ten_rows)).
Defined.

Lemma find_row_filter_other (i j : string) (rows : list ManagedPosition) :
  j <> i ->
  find_row j (filter (fun x => negb (String.eqb (id x) i)) rows)
  = find_row j rows.
Proof.
  intro H. unfold find_row. induction rows as [|x rows IH]; cbn; [reflexivity|].
  destruct (String.eqb_spec (id x) i) as [Ei|Ei]; cbn.
  - destruct (String.eqb_spec (id x) j) as [Ej|Ej]; [congruence | exact IH].
  - now rewrite IH.
Qed.

Lemma find_row_filter_same (i : string) (rows : list ManagedPosition) :
  find_row i (filter (fun x => negb (String.eqb (id x) i)) rows) = None.
Proof.
  unfold find_row. induction rows as [|x rows IH]; cbn; [reflexivity|].
  destruct (String.eqb (id x) i) eqn:E; cbn; [exact IH|].
  now rewrite E.
Qed.

(** X6. [deleteManagedPosition] on an id that has a row removes it and
    nothing else: the id is no longer found, the other ids are found as
    before, no outside call is made, and a later [monitorPosition] of that
    id throws "Managed position <id> not found".  On an id that has no row
    it throws, leaving the world as it was. *)
Theorem deleteManagedPosition_removes (this : PositionManagerService)
  (i : string) (w : World) :
  (forall r : ManagedPosition,
     find_row i (db w) = Some r ->
     exists w' : World,
       deleteManagedPosition i w = (Ok tt, w') /\
       find_row i (db w') = None /\
       (forall j : string, j <> i -> find_row j (db w') = find_row j (db w)) /\
       calls w' = calls w /\
       monitorPosition this i w' = (Throw (not_found i), w')) /\
  (find_row i (db w) = None ->
   exists e : Error, deleteManagedPosition i w = (Throw e, w)).
Proof.
  split.
  - intros r Hr. unfold deleteManagedPosition, prisma_delete. unfold_ops.
    rewrite Hr. eexists. split; [reflexivity|].
    split; [apply find_row_filter_same|].
    split; [intros j Hj; now apply find_row_filter_other|].
    split; [reflexivity|].
    apply monitorPosition_missing. apply find_row_filter_same.
  - intro Hr. unfold deleteManagedPosition, prisma_delete. unfold_ops.
    rewrite Hr. eexists. reflexivity.
Qed.

Lemma deleteManagedPosition_removes_witness :
  find_row "mp_0" (db (world_of [long_row])) = Some long_row /\
  exists w' : World,
    deleteManagedPosition "mp_0" (world_of [long_row]) = (Ok tt, w') /\
    find_row "mp_0" (db w') = None /\
    (forall j : string,
       j <> "mp_0" -> find_row j (db w') = find_row j (db (world_of [long_row]))) /\
    calls w' = calls (world_of [long_row]) /\
    monitorPosition (svc 150) "mp_0" w' = (Throw (not_found "mp_0"), w').
Proof.
  split; [reflexivity|].
  apply (proj1 (deleteManagedPosition_removes (svc 150) "mp_0"
                  (world_of [long_row])) long_row).
  reflexivity.
Defined.

(** ** Single-position operations *)

(** X7. For a row whose entry price is not 0, [updateManagedPosition]
    stores the price it is given together with the unrealized profit and
    loss, pl = (current - entry) * qty and
    plpc = (current - entry) / entry * 100, stamps the row with the current
    time, and changes nothing else: the other columns of the row, the other
    rows, the outside world. *)
Theorem updateManagedPosition_stores (i : string) (price : Q) (w : World)
  (r : ManagedPosition) :
  find_row i (db w) = Some r ->
  ~ entry_price r == 0 ->
  exists (r' : ManagedPosition) (w' : World),
    updateManagedPosition i price w = (Ok r', w') /\
    find_row i (db w') = Some r' /\
    current_price r' = Some price /\
    unrealized_pl r' = Some ((price - entry_price r) * qty r) /\
    unrealized_plpc r'
      = Some ((price - entry_price r) / entry_price r * 100) /\
    updated_at r' = now w /\
    same_terms r r' /\
    status r' = status r /\
    stop_loss_price r' = stop_loss_price r /\
    closed_price r' = closed_price r /\
    closed_reason r' = closed_reason r /\
    exit_order_id r' = exit_order_id r /\
    closed_at r' = closed_at r /\
    (forall j : string, j <> i -> find_row j (db w') = find_row j (db w)) /\
    calls w' = calls w /\
    logs w' = logs w.
Proof.
  intros Hr _. do 2 eexists.
  split; [apply (updateManagedPosition_found _ _ _ _ Hr)|].
  cbn -[find_row update_rows apply_patch].
  split; [apply find_row_update_same; exact Hr|].
  cbn -[find_row update_rows]. unfold same_terms. cbn -[find_row update_rows].
  repeat split.
  intros j Hj. apply find_row_update_other. congruence.
Qed.

Lemma updateManagedPosition_stores_witness :
  find_row "mp_0" (db (world_of [long_row])) = Some long_row /\
  ~ entry_price long_row == 0 /\
  exists (r' : ManagedPosition) (w' : World),
    updateManagedPosition "mp_0" 153 (world_of [long_row]) = (Ok r', w') /\
    find_row "mp_0" (db w') = Some r' /\
    current_price r' = Some 153 /\
    unrealized_pl r' = Some ((153 - entry_price long_row) * qty long_row) /\
    unrealized_plpc r'
      = Some ((153 - entry_price long_row) / entry_price long_row * 100) /\
    updated_at r' = now (world_of [long_row]) /\
    same_terms long_row r' /\
    status r' = status long_row /\
    stop_loss_price r' = stop_loss_price long_row /\
    closed_price r' = closed_price long_row /\
    closed_reason r' = closed_reason long_row /\
    exit_order_id r' = exit_order_id long_row /\
    closed_at r' = closed_at long_row /\
    (forall j : string,
       j <> "mp_0" -> find_row j (db w') = find_row j (db (world_of [long_row]))) /\
    calls w' = calls (world_of [long_row]) /\
    logs w' = logs (world_of [long_row]).
Proof.
  split; [reflexivity|]. split; [discriminate|].
  apply (updateManagedPosition_stores "mp_0" 153 (world_of [long_row]) long_row);
    [reflexivity | discriminate].
Defined.

(** X8. On an id that has no row, [monitorPosition], [closeManagedPosition]
    and [updateManagedPosition] throw "Managed position <id> not found"
    while [updateTrailingStop] returns silently; in all four cases the
    world is left as it was: no outside call, no write, no log line. *)
Theorem unknown_id_is_refused (this : PositionManagerService) (i reason : string)
  (closedPrice : option Q) (price : Q) (w : World) :
  find_row i (db w) = None ->
  message (not_found i) = "Managed position " ++ i ++ " not found" /\
  monitorPosition this i w = (Throw (not_found i), w) /\
  closeManagedPosition this i reason closedPrice w = (Throw (not_found i), w) /\
  updateManagedPosition i price w = (Throw (not_found i), w) /\
  updateTrailingStop i price w = (Ok tt, w).
Proof.
  intro Hr. split; [reflexivity|].
  split; [now apply monitorPosition_missing|].
  unfold closeManagedPosition, updateManagedPosition, updateTrailingStop.
  unfold_ops. now rewrite Hr.
Qed.

Lemma unknown_id_is_refused_witness :
  find_row "mp_9" (db (world_of [long_row])) = None /\
  monitorPosition (svc 150) "mp_9" (world_of [long_row])
    = (Throw (not_found "mp_9"), world_of [long_row]) /\
  closeManagedPosition (svc 150) "mp_9" "manual_close" None (world_of [long_row])
    = (Throw (not_found "mp_9"), world_of [long_row]).
Proof.
  split; [reflexivity|].
  destruct (unknown_id_is_refused (svc 150) "mp_9" "manual_close" None 150
              (world_of [long_row]) eq_refl) as (_ & H1 & H2 & _).
  split; assumption.
Defined.

(** X9. When the gateway refuses the entry order, [createManagedPosition]
    logs the failure and throws the gateway's error; no row is created, and
    the entry order is the only outside call made (no price is fetched). *)
Theorem createManagedPosition_order_refused (this : PositionManagerService)
  (params : CreateManagedPositionParams) (w : World) (e : Error) :
  placeOrder (tradingService this) (now w) (entry_request params) = Throw e ->
  exists w' : World,
    createManagedPosition this params w = (Throw e, w') /\
    db w' = db w /\
    next_id w' = next_id w /\
    calls w' = PlaceOrder (entry_request params) :: calls w /\
    hd_error (logs w')
      = Some {| level := Err; text := "Failed to create managed position";
                cause := Some e |}.
Proof.
  intro Ho. unfold entry_request in Ho.
  unfold createManagedPosition. unfold_ops. run. rewrite Ho. run.
  eexists. repeat split.
Qed.

Lemma createManagedPosition_order_refused_witness :
  placeOrder (tradingService (service_of (Throw gateway_down) (Ok exit_order)
                                (fun _ => Ok (trade_at 150))))
    (now empty_world) (entry_request (buy_params 2 5)) = Throw gateway_down /\
  exists w' : World,
    createManagedPosition
      (service_of (Throw gateway_down) (Ok exit_order)
         (fun _ => Ok (trade_at 150)))
      (buy_params 2 5) empty_world = (Throw gateway_down, w') /\
    db w' = db empty_world /\
    next_id w' = next_id empty_world /\
    calls w' = PlaceOrder (entry_request (buy_params 2 5)) :: calls empty_world /\
    hd_error (logs w')
      = Some {| level := Err; text := "Failed to create managed position";
                cause := Some gateway_down |}.
Proof.
  split; [reflexivity|].
  apply (createManagedPosition_order_refused
           (service_of (Throw gateway_down) (Ok exit_order)
              (fun _ => Ok (trade_at 150)))
           (buy_params 2 5) empty_world gateway_down).
  reflexivity.
Defined.

(** X10. A creation whose entry order comes back filled stores and returns
    one new row: active, with the parameters as given, the fill price as
    entry price and as current price, zero unrealized profit and loss, the
    thresholds [calculatePrices] gives for the fill price, the trailing
    flag defaulting to false, and no closing data.  The row is found again
    under its id and is among the positions the next cycle fetches; the
    entry order is the only outside call made. *)
Theorem createManagedPosition_stores (this : PositionManagerService)
  (params : CreateManagedPositionParams) (w : World) (order : Order)
  (fill : Q) :
  placeOrder (tradingService this) (now w) (entry_request params) = Ok order ->
  filled_avg_price order = Some fill ->
  exists (position : ManagedPosition) (w' : World),
    createManagedPosition this params w = (Ok position, w') /\
    id position = fresh_id (next_id w) /\
    symbol position = Params.symbol params /\
    qty position = Params.qty params /\
    entry_price position = fill /\
    entry_order_id position = Some (order_id order) /\
    stop_loss_pct position = Params.stopLossPct params /\
    take_profit_pct position = Params.takeProfitPct params /\
    stop_loss_price position
      = stopLossPrice (calculatePrices fill (Params.stopLossPct params)
                         (Params.takeProfitPct params) (Params.side params)) /\
    take_profit_price position
      = takeProfitPrice (calculatePrices fill (Params.stopLossPct params)
                           (Params.takeProfitPct params) (Params.side params)) /\
    trailing_stop position
      = match Params.trailingStop params with Some b => b | None => false end /\
    status position = active /\
    current_price position = Some fill /\
    unrealized_pl position = Some 0 /\
    unrealized_plpc position = Some 0 /\
    closed_price position = None /\
    closed_reason position = None /\
    exit_order_id position = None /\
    closed_at position = None /\
    getManagedPosition (id position) w' = (Ok (Some position), w') /\
    (exists rows : list ManagedPosition,
       getActiveManagedPositions w' = (Ok rows, w') /\ In position rows) /\
    calls w' = PlaceOrder (entry_request params) :: calls w.
Proof.
  intros Ho Hfill. unfold entry_request in Ho.
  unfold createManagedPosition. unfold_ops. run. rewrite Ho. run.
  rewrite Hfill. run.
  do 2 eexists. split; [reflexivity|].
  cbn -[find_row fresh_id getActiveManagedPositions calculatePrices].
  repeat (split; [reflexivity|]).
  split.
  - unfold find_row. cbn -[fresh_id]. now rewrite String.eqb_refl.
  - split; [|reflexivity].
    eexists. split; [reflexivity|].
    apply (Permutation_in _ (sort_desc_perm _)).
    cbn -[fresh_id calculatePrices]. now left.
Qed.

Lemma createManagedPosition_stores_witness :
  placeOrder (tradingService (svc 150)) (now empty_world)
    (entry_request (buy_params 2 5)) = Ok (filled_order 150) /\
  filled_avg_price (filled_order 150) = Some 150 /\
  exists (position : ManagedPosition) (w' : World),
    createManagedPosition (svc 150) (buy_params 2 5) empty_world
      = (Ok position, w') /\
    status position = active /\
    stop_loss_price position == 147 /\
    take_profit_price position == 315 # 2 /\
    getManagedPosition (id position) w' = (Ok (Some position), w').
Proof.
  split; [reflexivity|]. split; [reflexivity|].
  destruct (createManagedPosition_stores (svc 150) (buy_params 2 5) empty_world
              (filled_order 150) 150 eq_refl eq_refl)
    as (position & w' & H & _ & _ & _ & _ & _ & _ & _ & Hsl & Htp & _ & Hst
        & _ & _ & _ & _ & _ & _ & _ & Hget & _).
  exists position, w'. split; [exact H|]. split; [exact Hst|].
  split; [rewrite Hsl; reflexivity|]. split; [rewrite Htp; reflexivity|].
  exact Hget.
Defined.

Lemma or_default_truthy (a : option Q) (d : Q) :
  truthy a = true -> Some (or_default a d) = a.
Proof.
  destruct a as [q|]; cbn; [|discriminate].
  intro H. apply negb_true_iff in H. now rewrite H.
Qed.

Lemma or_default_falsy (a : option Q) (d : Q) :
  truthy a = false -> or_default a d = d.
Proof.
  destruct a as [q|]; cbn; [|reflexivity].
  intro H. apply negb_false_iff in H. now rewrite H.
Qed.

(** X11. When the gateway closes the position, [closeManagedPosition]
    marks the row closed with the reason it was given, the id of the
    closing order and the time of closing, and changes no other column.
    The closed price is the price passed in; failing that (absent or 0),
    the fill price of the closing order; failing that, the stored current
    price; failing that (absent or 0), the entry price. *)
Theorem closeManagedPosition_closes (this : PositionManagerService)
  (i reason : string) (closedPrice : option Q) (w : World)
  (r : ManagedPosition) (o : Order) :
  find_row i (db w) = Some r ->
  closePosition (tradingService this) (now w) (symbol r) = Ok o ->
  exists (r' : ManagedPosition) (w' : World),
    closeManagedPosition this i reason closedPrice w = (Ok r', w') /\
    find_row i (db w') = Some r' /\
    status r' = closed /\
    closed_reason r' = Some reason /\
    exit_order_id r' = Some (order_id o) /\
    closed_at r' = Some (S (now w)) /\
    (truthy closedPrice = true -> closed_price r' = closedPrice) /\
    (truthy closedPrice = false ->
     forall fill : Q,
       filled_avg_price o = Some fill -> closed_price r' = Some fill) /\
    (truthy closedPrice = false -> filled_avg_price o = None ->
     truthy (current_price r) = true -> closed_price r' = current_price r) /\
    (truthy closedPrice = false -> filled_avg_price o = None ->
     truthy (current_price r) = false ->
     closed_price r' = Some (entry_price r)) /\
    same_terms r r' /\
    stop_loss_price r' = stop_loss_price r /\
    current_price r' = current_price r /\
    unrealized_pl r' = unrealized_pl r /\
    unrealized_plpc r' = unrealized_plpc r /\
    (forall j : string, j <> i -> find_row j (db w') = find_row j (db w)) /\
    calls w' = ClosePosition (symbol r) :: calls w.
Proof.
  intros Hr Ho. do 2 eexists.
  split; [apply (closeManagedPosition_succeeds _ _ _ _ _ _ _ Hr Ho)|].
  cbn -[find_row update_rows apply_patch].
  split; [apply find_row_update_same; exact Hr|].
  cbn -[find_row update_rows final_closed_price]. unfold same_terms.
  cbn -[find_row update_rows final_closed_price].
  repeat (split; [reflexivity|]).
  unfold final_closed_price.
  split; [intro H; now apply or_default_truthy|].
  split; [intros H fill Hf; now rewrite (or_default_falsy _ _ H), Hf|].
  split; [intros H Hf Hc;
          rewrite (or_default_falsy _ _ H), Hf; now apply or_default_truthy|].
  split; [intros H Hf Hc;
          now rewrite (or_default_falsy _ _ H), Hf, (or_default_falsy _ _ Hc)|].
  split; [repeat split|].
  repeat (split; [reflexivity|]).
  split; [|reflexivity].
  intros j Hj. apply find_row_update_other. congruence.
Qed.

Lemma closeManagedPosition_closes_witness :
  find_row "mp_0" (db (world_of [long_row])) = Some long_row /\
  closePosition (tradingService (svc 150)) (now (world_of [long_row]))
    (symbol long_row) = Ok exit_order /\
  truthy None = false /\
  filled_avg_price exit_order = None /\
  truthy (current_price long_row) = true /\
  exists (r' : ManagedPosition) (w' : World),
    closeManagedPosition (svc 150) "mp_0" "manual_close" None
      (world_of [long_row]) = (Ok r', w') /\
    status r' = closed /\
    closed_reason r' = Some "manual_close" /\
    closed_price r' = current_price long_row.
Proof.
  split; [reflexivity|]. split; [reflexivity|]. split; [reflexivity|].
  split; [reflexivity|]. split; [reflexivity|].
  destruct (closeManagedPosition_closes (svc 150) "mp_0" "manual_close" None
              (world_of [long_row]) long_row exit_order eq_refl eq_refl)
    as (r' & w' & H & _ & Hst & Hre & _ & _ & _ & _ & Hcur & _).
  exists r', w'. split; [exact H|]. split; [exact Hst|]. split; [exact Hre|].
  apply Hcur; reflexivity.
Defined.

(** ** What the monitoring engine keeps *)

Lemma same_terms_refl (r : ManagedPosition) : same_terms r r.
Proof. unfold same_terms. repeat split. Qed.

Lemma same_terms_trans (a b c : ManagedPosition) :
  same_terms a b -> same_terms b c -> same_terms a c.
Proof.
  unfold same_terms. intros H1 H2.
  repeat match goal with H : _ /\ _ |- _ => destruct H end.
  repeat split; congruence.
Qed.

Lemma evolves_trans (a b c : ManagedPosition) :
  evolves a b -> evolves b c -> evolves a c.
Proof.
  intros [->|(Ha & Hab & Hsab & Hstab)] Hbc; [exact Hbc|].
  destruct Hbc as [->|(Hb & Hbc & Hsbc & Hstbc)].
  - right. tauto.
  - right. split; [exact Ha|]. split; [now apply (same_terms_trans a b c)|].
    split; [now apply (Qle_trans _ (stop_loss_price b))|].
    destruct Hstbc as [H|H]; [|tauto].
    rewrite H. exact Hstab.
Qed.

Lemma table_evolves_refl (rows : list ManagedPosition) : table_evolves rows rows.
Proof.
  split; [reflexivity|]. intros k r Hr. exists r. split; [exact Hr | now left].
Qed.

Lemma table_evolves_trans (a b c : list ManagedPosition) :
  table_evolves a b -> table_evolves b c -> table_evolves a c.
Proof.
  intros [Hid1 H1] [Hid2 H2]. split; [congruence|].
  intros k r Hr. destruct (H1 k r Hr) as (r1 & Hr1 & He1).
  destruct (H2 k r1 Hr1) as (r2 & Hr2 & He2).
  exists r2. split; [exact Hr2 | now apply (evolves_trans r r1 r2)].
Qed.

Lemma update_rows_ids (i : string) (d : Patch) (t : Date)
  (rows : list ManagedPosition) :
  map id (update_rows i d t rows) = map id rows.
Proof.
  unfold update_rows. rewrite map_map. apply map_ext.
  intro r. now destruct (String.eqb (id r) i).
Qed.

(** An update whose data leave the status alone or set it to closed or
    error, and leave the stop-loss price alone or raise it, is a legal
    change of an open row. *)
Lemma update_rows_evolves (i : string) (d : Patch) (t : Date)
  (rows : list ManagedPosition) (r : ManagedPosition) :
  find_row i rows = Some r ->
  is_active_or_monitoring r = true ->
  match set_stop_loss_price d with
  | Some q => stop_loss_price r <= q
  | None => True
  end ->
  match set_status d with
  | Some s => s = closed \/ s = error
  | None => True
  end ->
  table_evolves rows (update_rows i d t rows).
Proof.
  intros Hr Hopen Hstop Hstatus. split; [apply update_rows_ids|].
  intros k r0 Hr0.
  destruct (String.eqb_spec i k) as [<-|Hne].
  - exists (apply_patch d t r). split; [now apply find_row_update_same|].
    assert (r0 = r) by congruence. subst r0.
    right. split; [exact Hopen|]. split; [unfold same_terms; cbn; repeat split|].
    cbn. split.
    + destruct (set_stop_loss_price d); cbn; [exact Hstop | lra].
    + destruct (set_status d); cbn; tauto.
  - exists r0. split; [now rewrite find_row_update_other | now left].
Qed.

Lemma priced_evolves (i : string) (r : ManagedPosition) (price : Q) (w : World) :
  find_row i (db w) = Some r ->
  is_active_or_monitoring r = true ->
  table_evolves (db w) (db (priced i r price w)).
Proof.
  intros Hr Hopen. cbn -[update_rows].
  now apply (update_rows_evolves i _ _ _ r).
Qed.

Lemma closeManagedPosition_evolves (this : PositionManagerService)
  (i reason : string) (closedPrice : option Q) (w : World) (r : ManagedPosition) :
  find_row i (db w) = Some r ->
  is_active_or_monitoring r = true ->
  table_evolves (db w)
    (db (snd (closeManagedPosition this i reason closedPrice w))).
Proof.
  intros Hr Hopen.
  destruct (closePosition (tradingService this) (now w) (symbol r))
    as [o|e] eqn:Hc.
  - rewrite (closeManagedPosition_succeeds _ _ _ _ _ _ _ Hr Hc).
    cbn -[update_rows]. apply (update_rows_evolves i _ _ _ r); cbn; tauto.
  - rewrite (closeManagedPosition_fails _ _ _ _ _ _ _ Hr Hc).
    cbn -[update_rows]. apply (update_rows_evolves i _ _ _ r); cbn; tauto.
Qed.

Lemma updateTrailingStop_evolves (i : string) (price : Q) (w : World)
  (r : ManagedPosition) :
  find_row i (db w) = Some r ->
  is_active_or_monitoring r = true ->
  table_evolves (db w) (db (snd (updateTrailingStop i price w))).
Proof.
  intros Hr Hopen.
  destruct (Qlt_le_dec (stop_loss_price r) (trailing_candidate r price))
    as [Hlt|Hle].
  - rewrite (updateTrailingStop_raises _ _ _ _ Hr Hlt).
    cbn -[update_rows]. apply (update_rows_evolves i _ _ _ r); cbn; try tauto.
    lra.
  - rewrite (updateTrailingStop_keeps _ _ _ _ Hr Hle). apply table_evolves_refl.
Qed.

Lemma monitorPosition_evolves (this : PositionManagerService) (i : string)
  (w : World) :
  table_evolves (db w) (db (snd (monitorPosition this i w))).
Proof.
  destruct (find_row i (db w)) as [r|] eqn:Hr;
    [|rewrite (monitorPosition_missing _ _ _ Hr); apply table_evolves_refl].
  destruct (is_active_or_monitoring r) eqn:Hs;
    [|rewrite (monitorPosition_skips _ _ _ _ Hr Hs); apply table_evolves_refl].
  destruct (getSnapshot (dataService this) (now w) (symbol r))
    as [snapshot|e] eqn:Hsnap;
    [|rewrite (monitorPosition_feed_throws _ _ _ _ _ Hr Hs Hsnap);
      apply table_evolves_refl].
  destruct (truthy (snapshot_price snapshot)) eqn:Ht;
    [|rewrite (monitorPosition_no_price _ _ _ _ _ Hr Hs Hsnap Ht);
      apply table_evolves_refl].
  destruct (snapshot_price snapshot) as [price|] eqn:Hp; [|discriminate].
  rewrite (monitorPosition_priced _ _ _ _ _ _ Hr Hs Hsnap Hp Ht).
  pose proof (priced_evolves i r price w Hr Hs) as Hpriced.
  destruct (find_row_priced i r price w warn_stop_loss Hr)
    as (r1 & Hr1a & Hr1 & _ & Hst1 & _).
  assert (Hopen1 : is_active_or_monitoring r1 = true).
  { unfold is_active_or_monitoring in *. now rewrite Hst1. }
  assert (Hclose : forall reason l result,
            table_evolves (db w)
              (db (snd (after_close
                          (closeManagedPosition this i reason (Some price)
                             (add_log l (priced i r price w))) result)))).
  { intros reason l result. rewrite after_close_db.
    apply (table_evolves_trans _ _ _ Hpriced).
    apply (closeManagedPosition_evolves this i reason (Some price)
             (add_log l (priced i r price w)) r1); [exact Hr1 | exact Hopen1]. }
  destruct (Qle_bool price (stop_loss_price r)); [apply Hclose|].
  destruct (Qle_bool (take_profit_price r) price); [apply Hclose|].
  destruct (trailing_stop r); cbn [snd]; [|exact Hpriced].
  apply (table_evolves_trans _ _ _ Hpriced).
  now apply (updateTrailingStop_evolves i price _ r1).
Qed.

Lemma turns_evolves (this : PositionManagerService)
  (positions : list ManagedPosition) (w : World) :
  table_evolves (db w) (db (snd (turns this positions w))).
Proof.
  revert w. induction positions as [|q rest IH]; intro w;
    [apply table_evolves_refl|].
  cbn [turns snd].
  apply (table_evolves_trans _ (db (after_turn this q w))); [|apply IH].
  rewrite after_turn_db. apply monitorPosition_evolves.
Qed.

(** What [monitorAllPositions] evaluates to. *)
Lemma monitorAllPositions_turns (this : PositionManagerService) (w : World) :
  monitorAllPositions this w =
    (Ok {| total :=
             List.length (sort_desc (filter is_active_or_monitoring (db w)));
           triggered_count :=
             count_triggered
               (fst (turns this
                       (sort_desc (filter is_active_or_monitoring (db w)))
                       (add_log info_cycle_start w)));
           errors :=
             count_errors
               (fst (turns this
                       (sort_desc (filter is_active_or_monitoring (db w)))
                       (add_log info_cycle_start w))) |},
     add_log info_cycle_done
       (snd (turns this (sort_desc (filter is_active_or_monitoring (db w)))
               (add_log info_cycle_start w)))).
Proof.
  unfold monitorAllPositions, getActiveManagedPositions, prisma_findMany.
  unfold bind at 1. unfold logger_info, logger_write. unfold bind at 1.
  unfold bind at 1. rewrite monitor_loop_turns. reflexivity.
Qed.

Lemma next_id_monitorPosition (this : PositionManagerService) (i : string)
  (w : World) :
  next_id (snd (monitorPosition this i w)) = next_id w.
Proof.
  destruct (find_row i (db w)) as [r|] eqn:Hr;
    [|now rewrite (monitorPosition_missing _ _ _ Hr)].
  destruct (is_active_or_monitoring r) eqn:Hs;
    [|now rewrite (monitorPosition_skips _ _ _ _ Hr Hs)].
  destruct (getSnapshot (dataService this) (now w) (symbol r))
    as [snapshot|e] eqn:Hsnap;
    [|now rewrite (monitorPosition_feed_throws _ _ _ _ _ Hr Hs Hsnap)].
  destruct (truthy (snapshot_price snapshot)) eqn:Ht;
    [|now rewrite (monitorPosition_no_price _ _ _ _ _ Hr Hs Hsnap Ht)].
  destruct (snapshot_price snapshot) as [price|] eqn:Hp; [|discriminate].
  rewrite (monitorPosition_priced _ _ _ _ _ _ Hr Hs Hsnap Hp Ht).
  destruct (find_row_priced i r price w warn_stop_loss Hr)
    as (r1 & Hr1a & Hr1 & _).
  assert (Hclose : forall reason l result,
            next_id (snd (after_close
                            (closeManagedPosition this i reason (Some price)
                               (add_log l (priced i r price w))) result))
            = next_id w).
  { intros reason l result.
    destruct (closePosition (tradingService this)
                (now (add_log l (priced i r price w))) (symbol r1))
      as [o|e] eqn:Hc.
    - now rewrite (closeManagedPosition_succeeds this i reason (Some price)
                     (add_log l (priced i r price w)) r1 o Hr1 Hc).
    - now rewrite (closeManagedPosition_fails this i reason (Some price)
                     (add_log l (priced i r price w)) r1 e Hr1 Hc). }
  destruct (Qle_bool price (stop_loss_price r)); [apply Hclose|].
  destruct (Qle_bool (take_profit_price r) price); [apply Hclose|].
  destruct (trailing_stop r); cbn [snd]; [|reflexivity].
  destruct (Qlt_le_dec (stop_loss_price r1) (trailing_candidate r1 price))
    as [Hlt|Hle].
  - now rewrite (updateTrailingStop_raises _ _ _ _ Hr1 Hlt).
  - now rewrite (updateTrailingStop_keeps _ _ _ _ Hr1 Hle).
Qed.

Lemma next_id_turns (this : PositionManagerService)
  (positions : list ManagedPosition) (w : World) :
  next_id (snd (turns this positions w)) = next_id w.
Proof.
  revert w. induction positions as [|q rest IH]; intro w; [reflexivity|].
  cbn [turns snd]. rewrite IH. unfold after_turn.
  pose proof (next_id_monitorPosition this (id q) w) as H.
  now destruct (monitorPosition this (id q) w) as [[res|e] w1].
Qed.

(** X12. Neither one evaluation nor a whole monitoring cycle creates or
    deletes a row, and the rows they write stay the positions they were: a
    row that is not active or monitoring is left untouched; a row that is
    keeps its id, symbol, quantity, entry price, percentages, take-profit
    price and trailing flag, its stop-loss price never goes down, and its
    status stays or becomes closed or error. *)
Theorem monitoring_keeps_positions (this : PositionManagerService) (w : World) :
  (forall i : string,
     table_evolves (db w) (db (snd (monitorPosition this i w))) /\
     next_id (snd (monitorPosition this i w)) = next_id w) /\
  table_evolves (db w) (db (snd (monitorAllPositions this w))) /\
  next_id (snd (monitorAllPositions this w)) = next_id w.
Proof.
  split; [|split].
  - intro i. split; [apply monitorPosition_evolves | apply next_id_monitorPosition].
  - rewrite monitorAllPositions_turns. cbn [snd].
    apply (turns_evolves this _ (add_log info_cycle_start w)).
  - rewrite monitorAllPositions_turns. cbn [snd].
    apply (next_id_turns this _ (add_log info_cycle_start w)).
Qed.

Lemma counts_disjoint (steps : list Step) :
  (count_triggered steps + count_errors steps <= List.length steps)%nat.
Proof.
  unfold count_triggered, count_errors.
  induction steps as [|s steps IH]; cbn; [lia|].
  unfold reported_trigger at 1, raised at 1.
  destruct (step_outcome s) as [result|e]; [destruct (triggered result)|];
    cbn; lia.
Qed.

Lemma turns_length (this : PositionManagerService)
  (positions : list ManagedPosition) (w : World) :
  List.length (fst (turns this positions w)) = List.length positions.
Proof.
  rewrite <- (turns_positions this positions w) at 2. now rewrite length_map.
Qed.

(** X13. Whenever [monitorAllPositions] resolves, its counters are
    consistent: total is the number of rows that were active or monitoring
    when the cycle started, and triggered + errors never exceeds it.  When
    no row was active or monitoring the result is all zeros, no outside
    call has been made and the table has not been written. *)
Theorem monitorAllPositions_counts (this : PositionManagerService)
  (w w' : World) (result : CycleResult) :
  monitorAllPositions this w = (Ok result, w') ->
  total result = List.length (filter is_active_or_monitoring (db w)) /\
  (triggered_count result + errors result <= total result)%nat /\
  (filter is_active_or_monitoring (db w) = [] ->
   result = {| total := 0; triggered_count := 0; errors := 0 |} /\
   calls w' = calls w /\
   db w' = db w).
Proof.
  rewrite monitorAllPositions_turns. intros [= <- <-].
  cbn [total triggered_count errors].
  split; [apply sort_desc_length|].
  split.
  - etransitivity; [apply counts_disjoint|].
    now rewrite turns_length.
  - intro Hnone. rewrite Hnone. cbn. repeat split.
Qed.

(** The cycle of scenario D: ten positions, one triggered, one error. *)
Lemma monitorAllPositions_counts_witness :
  monitorAllPositions svc_one_down (world_of ten_rows)
  = (Ok {| total := 10; triggered_count := 1; errors := 1 |},
     snd (monitorAllPositions svc_one_down (world_of ten_rows))) /\
  total {| total := 10; triggered_count := 1; errors := 1 |}
  = List.length (filter is_active_or_monitoring (db (world_of ten_rows))) /\
  (triggered_count {| total := 10; triggered_count := 1; errors := 1 |}
   + errors {| total := 10; triggered_count := 1; errors := 1 |}
   <= total {| total := 10; triggered_count := 1; errors := 1 |})%nat.
Proof.
  assert (H : monitorAllPositions svc_one_down (world_of ten_rows)
              = (Ok {| total := 10; triggered_count := 1; errors := 1 |},
                 snd (monitorAllPositions svc_one_down (world_of ten_rows)))).
  { rewrite <- (proj1 scenario_D). apply surjective_pairing. }
  split; [exact H|].
  destruct (monitorAllPositions_counts svc_one_down (world_of ten_rows) _ _ H)
    as (H1 & H2 & _).
  split; [exact H1 | exact H2].
Defined.

(** The close that a trigger starts, whatever the brokerage answers. *)
Lemma triggered_close_ends (this : PositionManagerService)
  (i reason : string) (w : World) (r : ManagedPosition) (price : Q)
  (l : LogEntry) (result : MonitorResult) :
  find_row i (db w) = Some r ->
  exists r' : ManagedPosition,
    find_row i
      (db (snd (after_close
                  (closeManagedPosition this i reason (Some price)
                     (add_log l (priced i r price w))) result)))
    = Some r' /\
    (status r' = closed \/ status r' = error) /\
    calls (snd (after_close
                  (closeManagedPosition this i reason (Some price)
                     (add_log l (priced i r price w))) result))
    = ClosePosition (symbol r) :: GetSnapshot (symbol r) :: calls w.
Proof.
  intro Hr.
  destruct (find_row_priced i r price w l Hr)
    as (r1 & Hr1 & _ & Hsym & _).
  destruct (closePosition (tradingService this)
              (now (add_log l (priced i r price w))) (symbol r1))
    as [o|e] eqn:Hc.
  - rewrite (closeManagedPosition_succeeds _ _ _ _ _ _ _ Hr1 Hc).
    eexists. cbn -[find_row update_rows apply_patch].
    split; [apply find_row_update_same; exact Hr1|].
    split; [left; reflexivity | now rewrite Hsym].
  - rewrite (closeManagedPosition_fails _ _ _ _ _ _ _ Hr1 Hc).
    eexists. cbn -[find_row update_rows apply_patch].
    split; [apply find_row_update_same; exact Hr1|].
    split; [right; reflexivity | now rewrite Hsym].
Qed.

(** X14. A position whose threshold was reached is handed to the brokerage
    once: whether the close then succeeded or failed, the evaluation made
    exactly one price fetch and one close call, the row is left closed or
    in error, the next cycle does not fetch it, and evaluating it again
    does nothing at all. *)
Theorem triggered_position_is_not_retried (this : PositionManagerService)
  (i : string) (w : World) (r : ManagedPosition) (snapshot : Snapshot)
  (price : Q) :
  find_row i (db w) = Some r ->
  status r = active \/ status r = monitoring ->
  getSnapshot (dataService this) (now w) (symbol r) = Ok snapshot ->
  snapshot_price snapshot = Some price ->
  truthy (Some price) = true ->
  price <= stop_loss_price r \/ take_profit_price r <= price ->
  exists r' : ManagedPosition,
    find_row i (db (snd (monitorPosition this i w))) = Some r' /\
    (status r' = closed \/ status r' = error) /\
    calls (snd (monitorPosition this i w))
      = ClosePosition (symbol r) :: GetSnapshot (symbol r) :: calls w /\
    ~ In r' (sort_desc (filter is_active_or_monitoring
                          (db (snd (monitorPosition this i w))))) /\
    monitorPosition this i (snd (monitorPosition this i w))
      = (Ok not_triggered, snd (monitorPosition this i w)).
Proof.
  intros Hr Hs Hsnap Hp Ht Htrig. apply open_iff in Hs.
  rewrite (monitorPosition_priced _ _ _ _ _ _ Hr Hs Hsnap Hp Ht).
  assert (Hend : forall reason l result,
            let w1 := snd (after_close
                             (closeManagedPosition this i reason (Some price)
                                (add_log l (priced i r price w))) result) in
            exists r' : ManagedPosition,
              find_row i (db w1) = Some r' /\
              (status r' = closed \/ status r' = error) /\
              calls w1
                = ClosePosition (symbol r) :: GetSnapshot (symbol r) :: calls w /\
              ~ In r' (sort_desc (filter is_active_or_monitoring (db w1))) /\
              monitorPosition this i w1 = (Ok not_triggered, w1)).
  { intros reason l result w1.
    destruct (triggered_close_ends this i reason w r price l result Hr)
      as (r' & Hr' & Hst & Hcalls).
    assert (Hclosed : is_active_or_monitoring r' = false).
    { unfold is_active_or_monitoring. now destruct Hst as [-> | ->]. }
    exists r'. split; [exact Hr'|]. split; [exact Hst|]. split; [exact Hcalls|].
    split.
    - intro Hin.
      apply (Permutation_in _ (Permutation_sym (sort_desc_perm _))) in Hin.
      apply filter_In in Hin. destruct Hin as [_ Hin]. congruence.
    - now apply (monitorPosition_skips this i w1 r'). }
  destruct (Qle_bool price (stop_loss_price r)) eqn:E1; [apply Hend|].
  destruct (Qle_bool (take_profit_price r) price) eqn:E2; [apply Hend|].
  exfalso. destruct Htrig as [H|H]; apply Qle_bool_iff in H; congruence.
Qed.

Lemma triggered_position_is_not_retried_witness :
  find_row "mp_0" (db (world_of [long_row])) = Some long_row /\
  (status long_row = active \/ status long_row = monitoring) /\
  getSnapshot (dataService (svc_close_fails 145)) (now (world_of [long_row]))
    (symbol long_row) = Ok (trade_at 145) /\
  snapshot_price (trade_at 145) = Some 145 /\
  truthy (Some 145) = true /\
  (145 <= stop_loss_price long_row \/ take_profit_price long_row <= 145) /\
  exists r' : ManagedPosition,
    find_row "mp_0"
      (db (snd (monitorPosition (svc_close_fails 145) "mp_0"
                  (world_of [long_row])))) = Some r' /\
    (status r' = closed \/ status r' = error) /\
    calls (snd (monitorPosition (svc_close_fails 145) "mp_0"
                  (world_of [long_row])))
      = ClosePosition (symbol long_row) :: GetSnapshot (symbol long_row)
        :: calls (world_of [long_row]) /\
    ~ In r' (sort_desc
               (filter is_active_or_monitoring
                  (db (snd (monitorPosition (svc_close_fails 145) "mp_0"
                              (world_of [long_row])))))) /\
    monitorPosition (svc_close_fails 145) "mp_0"
      (snd (monitorPosition (svc_close_fails 145) "mp_0" (world_of [long_row])))
    = (Ok not_triggered,
       snd (monitorPosition (svc_close_fails 145) "mp_0" (world_of [long_row]))).
Proof.
  split; [reflexivity|]. split; [left; reflexivity|].
  split; [reflexivity|]. split; [reflexivity|]. split; [reflexivity|].
  split; [left; discriminate|].
  apply (triggered_position_is_not_retried (svc_close_fails 145) "mp_0"
           (world_of [long_row]) long_row (trade_at 145) 145);
    [reflexivity | left; reflexivity | reflexivity | reflexivity | reflexivity
    | left; discriminate].
Defined.

(** X15. An evaluation that reaches no threshold never calls the
    brokerage: its one outside call is the price fetch.  It leaves the
    take-profit price alone, and the stop-loss price too unless the row has
    the trailing flag and the trailing candidate
    current * (1 - stopLossPct/100) is above the stored stop, in which case
    the candidate becomes the stop. *)
Theorem quiet_evaluation (this : PositionManagerService) (i : string)
  (w : World) (r : ManagedPosition) (snapshot : Snapshot) (price : Q) :
  find_row i (db w) = Some r ->
  status r = active \/ status r = monitoring ->
  getSnapshot (dataService this) (now w) (symbol r) = Ok snapshot ->
  snapshot_price snapshot = Some price ->
  truthy (Some price) = true ->
  stop_loss_price r < price ->
  price < take_profit_price r ->
  exists (w' : World) (r' : ManagedPosition),
    monitorPosition this i w = (Ok not_triggered, w') /\
    find_row i (db w') = Some r' /\
    calls w' = GetSnapshot (symbol r) :: calls w /\
    take_profit_price r' = take_profit_price r /\
    stop_loss_price r'
      = (if trailing_stop r
            && Qlt_bool (stop_loss_price r) (trailing_candidate r price)
         then trailing_candidate r price
         else stop_loss_price r).
Proof.
  intros Hr Hs Hsnap Hp Ht Hsl Htp. apply open_iff in Hs.
  rewrite (monitorPosition_priced _ _ _ _ _ _ Hr Hs Hsnap Hp Ht).
  destruct (Qle_bool price (stop_loss_price r)) eqn:E1;
    [apply Qle_bool_iff in E1; lra|].
  destruct (Qle_bool (take_profit_price r) price) eqn:E2;
    [apply Qle_bool_iff in E2; lra|].
  destruct (find_row_priced i r price w warn_stop_loss Hr)
    as (r1 & _ & Hr1 & _ & _ & Hpct & Hstop & _).
  assert (Htp1 : take_profit_price r1 = take_profit_price r).
  { cbn -[find_row update_rows apply_patch] in Hr1.
    rewrite (find_row_update_same _ _ _ _ _ Hr) in Hr1.
    injection Hr1 as <-. reflexivity. }
  assert (Hcand : trailing_candidate r1 price = trailing_candidate r price).
  { unfold trailing_candidate. now rewrite Hpct. }
  destruct (trailing_stop r); cbn [andb].
  - destruct (Qlt_le_dec (stop_loss_price r1) (trailing_candidate r1 price))
      as [Hlt|Hle].
    + rewrite (updateTrailingStop_raises _ _ _ _ Hr1 Hlt).
      do 2 eexists. split; [reflexivity|].
      cbn -[find_row update_rows apply_patch].
      split; [apply find_row_update_same; exact Hr1|].
      split; [reflexivity|]. cbn. split; [exact Htp1|].
      rewrite Hstop, Hcand in Hlt. apply Qlt_bool_iff in Hlt.
      now rewrite Hlt, Hcand.
    + rewrite (updateTrailingStop_keeps _ _ _ _ Hr1 Hle).
      exists (priced i r price w), r1. split; [reflexivity|].
      split; [exact Hr1|]. split; [reflexivity|]. split; [exact Htp1|].
      rewrite Hstop, Hcand in Hle. apply Qlt_bool_false in Hle.
      now rewrite Hle.
  - exists (priced i r price w), r1. split; [reflexivity|].
    split; [exact Hr1|]. split; [reflexivity|]. split; assumption.
Qed.

Lemma quiet_evaluation_witness :
  find_row "mp_0" (db (world_of [row "mp_0" "AAPL" active 147 1000 true]))
    = Some (row "mp_0" "AAPL" active 147 1000 true) /\
  getSnapshot (dataService (svc 160))
    (now (world_of [row "mp_0" "AAPL" active 147 1000 true]))
    (symbol (row "mp_0" "AAPL" active 147 1000 true)) = Ok (trade_at 160) /\
  stop_loss_price (row "mp_0" "AAPL" active 147 1000 true) < 160 /\
  160 < take_profit_price (row "mp_0" "AAPL" active 147 1000 true) /\
  exists (w' : World) (r' : ManagedPosition),
    monitorPosition (svc 160) "mp_0"
      (world_of [row "mp_0" "AAPL" active 147 1000 true])
      = (Ok not_triggered, w') /\
    find_row "mp_0" (db w') = Some r' /\
    stop_loss_price r' == 784 # 5.
Proof.
  split; [reflexivity|]. split; [reflexivity|]. split; [reflexivity|].
  split; [reflexivity|].
  destruct (quiet_evaluation (svc 160) "mp_0"
              (world_of [row "mp_0" "AAPL" active 147 1000 true])
              (row "mp_0" "AAPL" active 147 1000 true) (trade_at 160) 160
              eq_refl (or_introl eq_refl) eq_refl eq_refl eq_refl
              eq_refl eq_refl)
    as (w' & r' & H & Hr' & _ & _ & Hstop).
  exists w', r'. split; [exact H|]. split; [exact Hr'|].
  rewrite Hstop. reflexivity.
Defined.

(** ** The routes *)

(** X17. A valid body whose entry order the brokerage fills: the POST
    route answers 201 with the row [createManagedPosition] has just stored.
    That row is the one new row of the table; it is active, carries the
    validated parameters, has the fill price as entry price and the
    thresholds [calculatePrices] gives for it; the entry order is the only
    outside call. *)
Theorem POST_creates_position (service : PositionManagerService)
  (body : Body.t) (w : World) (params : CreateManagedPositionParams)
  (order : Order) (fill : Q) :
  createManagedPositionSchema body = Some params ->
  placeOrder (tradingService service) (now w) (entry_request params) = Ok order ->
  filled_avg_price order = Some fill ->
  exists (position : ManagedPosition) (w' : World),
    POST service body w
      = (Ok {| http_status := 201; success := true; data := Some position;
               error_text := None |}, w') /\
    db w' = position :: db w /\
    find_row (id position) (db w') = Some position /\
    status position = active /\
    symbol position = Params.symbol params /\
    qty position = Params.qty params /\
    stop_loss_pct position = Params.stopLossPct params /\
    take_profit_pct position = Params.takeProfitPct params /\
    entry_price position = fill /\
    entry_order_id position = Some (order_id order) /\
    stop_loss_price position
      = stopLossPrice (calculatePrices fill (Params.stopLossPct params)
                         (Params.takeProfitPct params) (Params.side params)) /\
    take_profit_price position
      = takeProfitPrice (calculatePrices fill (Params.stopLossPct params)
                           (Params.takeProfitPct params) (Params.side params)) /\
    calls w' = PlaceOrder (entry_request params) :: calls w.
Proof.
  intros Hs Ho Hfill. unfold entry_request in Ho.
  unfold POST. rewrite Hs. unfold createManagedPosition. unfold_ops. run.
  rewrite Ho. run. rewrite Hfill. run.
  do 2 eexists. split; [reflexivity|].
  cbn -[find_row fresh_id calculatePrices].
  split; [reflexivity|].
  split; [unfold find_row; cbn -[fresh_id calculatePrices];
          now rewrite String.eqb_refl|].
  repeat split.
Qed.

Lemma POST_creates_position_witness :
  createManagedPositionSchema good_body = Some good_params /\
  placeOrder (tradingService (svc 150)) (now empty_world)
    (entry_request good_params) = Ok (filled_order 150) /\
  filled_avg_price (filled_order 150) = Some 150 /\
  exists (position : ManagedPosition) (w' : World),
    POST (svc 150) good_body empty_world
      = (Ok {| http_status := 201; success := true; data := Some position;
               error_text := None |}, w') /\
    db w' = [position] /\
    status position = active /\
    entry_price position = 150 /\
    calls w' = [PlaceOrder (entry_request good_params)].
Proof.
  split; [reflexivity|]. split; [reflexivity|]. split; [reflexivity|].
  destruct (POST_creates_position (svc 150) good_body empty_world
              good_params (filled_order 150) 150 eq_refl eq_refl eq_refl)
    as (position & w' & H & Hdb & _ & Hst & _ & _ & _ & _ & He & _ & _ & _ & Hc).
  exists position, w'. repeat split; assumption.
Defined.

(** X18. When the body is valid but the gateway refuses the entry order,
    the POST route answers 500 with the gateway's message (or "Failed to
    create managed position" when that message is empty) and no row is
    created. *)
Theorem POST_reports_gateway_failure (service : PositionManagerService)
  (body : Body.t) (w : World) (params : CreateManagedPositionParams)
  (e : Error) :
  createManagedPositionSchema body = Some params ->
  placeOrder (tradingService service) (now w) (entry_request params) = Throw e ->
  exists w' : World,
    POST service body w
      = (Ok {| http_status := 500; success := false; data := None;
               error_text :=
                 Some (if String.eqb (message e) ""
                       then "Failed to create managed position"
                       else message e) |}, w') /\
    db w' = db w /\
    calls w' = PlaceOrder (entry_request params) :: calls w.
Proof.
  intros Hs Ho. unfold entry_request in Ho.
  unfold POST. rewrite Hs. unfold createManagedPosition. unfold_ops. run.
  rewrite Ho. run. eexists. repeat split.
Qed.

Lemma POST_reports_gateway_failure_witness :
  createManagedPositionSchema good_body = Some good_params /\
  placeOrder (tradingService (service_of (Throw gateway_down) (Ok exit_order)
                                (fun _ => Ok (trade_at 150))))
    (now empty_world) (entry_request good_params) = Throw gateway_down /\
  exists w' : World,
    POST (service_of (Throw gateway_down) (Ok exit_order)
            (fun _ => Ok (trade_at 150))) good_body empty_world
      = (Ok {| http_status := 500; success := false; data := None;
               error_text :=
                 Some (if String.eqb (message gateway_down) ""
                       then "Failed to create managed position"
                       else message gateway_down) |}, w') /\
    db w' = db empty_world /\
    calls w' = PlaceOrder (entry_request good_params) :: calls empty_world.
Proof.
  split; [reflexivity|]. split; [reflexivity|].
  exact (POST_reports_gateway_failure
           (service_of (Throw gateway_down) (Ok exit_order)
              (fun _ => Ok (trade_at 150)))
           good_body empty_world good_params gateway_down eq_refl eq_refl).
Defined.

(** X19. The DELETE route answers 404 for an id that has no row, without
    calling the brokerage; for a row that is not closed it closes the
    position with the reason of the query, "manual_close" when there is
    none, and answers 200 with the closed row when the brokerage closes,
    500 with the brokerage's message when it refuses, the row being then
    in status error. *)
Theorem DELETE_outcomes (service : PositionManagerService) (i : string)
  (reasonParam : option string) (w : World) :
  (find_row i (db w) = None ->
   exists w' : World,
     DELETE service i reasonParam w
       = (Ok {| http_status := 404; success := false; data := None;
                error_text := Some "Managed position not found" |}, w') /\
     db w' = db w /\ calls w' = calls w) /\
  (forall (r : ManagedPosition) (o : Order),
     find_row i (db w) = Some r ->
     status r <> closed ->
     closePosition (tradingService service) (now w) (symbol r) = Ok o ->
     exists (r' : ManagedPosition) (w' : World),
       DELETE service i reasonParam w
         = (Ok {| http_status := 200; success := true; data := Some r';
                  error_text := None |}, w') /\
       find_row i (db w') = Some r' /\
       status r' = closed /\
       closed_reason r'
         = Some match reasonParam with
                | Some reason => if String.eqb reason "" then "manual_close"
                                 else reason
                | None => "manual_close"
                end) /\
  (forall (r : ManagedPosition) (e : Error),
     find_row i (db w) = Some r ->
     status r <> closed ->
     closePosition (tradingService service) (now w) (symbol r) = Throw e ->
     exists (r' : ManagedPosition) (w' : World),
       DELETE service i reasonParam w
         = (Ok {| http_status := 500; success := false; data := None;
                  error_text :=
                    Some (if String.eqb (message e) ""
                          then "Failed to close managed position"
                          else message e) |}, w') /\
       find_row i (db w') = Some r' /\
       status r' = error).
Proof.
  split; [|split].
  - intro Hr. unfold DELETE. unfold_ops. run. rewrite Hr. run.
    eexists. repeat split.
  - intros r o Hr Hst Ho.
    assert (Hne : status_eqb (status r) closed = false).
    { destruct (status_eqb (status r) closed) eqn:E; [|reflexivity].
      apply status_eqb_eq in E. contradiction. }
    unfold DELETE. unfold_ops. run. rewrite Hr. run. rewrite Hne.
    match goal with
    | |- context [closeManagedPosition service i ?reason None ?w0] =>
        rewrite (closeManagedPosition_succeeds service i reason None w0 r o Hr Ho)
    end.
    do 2 eexists. split; [reflexivity|].
    cbn -[find_row update_rows apply_patch].
    split; [apply find_row_update_same; exact Hr|].
    split; reflexivity.
  - intros r e Hr Hst He.
    assert (Hne : status_eqb (status r) closed = false).
    { destruct (status_eqb (status r) closed) eqn:E; [|reflexivity].
      apply status_eqb_eq in E. contradiction. }
    unfold DELETE. unfold_ops. run. rewrite Hr. run. rewrite Hne.
    match goal with
    | |- context [closeManagedPosition service i ?reason None ?w0] =>
        rewrite (closeManagedPosition_fails service i reason None w0 r e Hr He)
    end.
    do 2 eexists. split; [reflexivity|].
    cbn -[find_row update_rows apply_patch].
    split; [apply find_row_update_same; exact Hr | reflexivity].
Qed.

Lemma DELETE_outcomes_witness :
  find_row "mp_0" (db (world_of [long_row])) = Some long_row /\
  status long_row <> closed /\
  closePosition (tradingService (svc 150)) (now (world_of [long_row]))
    (symbol long_row) = Ok exit_order /\
  exists (r' : ManagedPosition) (w' : World),
    DELETE (svc 150) "mp_0" None (world_of [long_row])
      = (Ok {| http_status := 200; success := true; data := Some r';
               error_text := None |}, w') /\
    find_row "mp_0" (db w') = Some r' /\
    status r' = closed /\
    closed_reason r' = Some "manual_close".
Proof.
  split; [reflexivity|]. split; [discriminate|]. split; [reflexivity|].
  apply (proj1 (proj2 (DELETE_outcomes (svc 150) "mp_0" None
                         (world_of [long_row]))) long_row exit_order);
    [reflexivity | discriminate | reflexivity].
Defined.



(** *** The order of a cycle *)

Lemma updateTrailingStop_calls (i : string) (price : Q) (w : World) :
  calls (snd (updateTrailingStop i price w)) = calls w.
Proof.
  destruct (find_row i (db w)) as [r|] eqn:Hr.
  - destruct (Qlt_le_dec (stop_loss_price r) (trailing_candidate r price))
      as [Hlt|Hle].
    + now rewrite (updateTrailingStop_raises _ _ _ _ Hr Hlt).
    + now rewrite (updateTrailingStop_keeps _ _ _ _ Hr Hle).
  - unfold updateTrailingStop. unfold_ops. now rewrite Hr.
Qed.

(** One evaluation of an open position asks for its price once. *)
Lemma monitorPosition_requests (this : PositionManagerService) (i : string)
  (w : World) (r : ManagedPosition) :
  find_row i (db w) = Some r ->
  is_active_or_monitoring r = true ->
  price_requests (calls (snd (monitorPosition this i w)))
  = (price_requests (calls w) ++ [symbol r])%list.
Proof.
  intros Hr Hs.
  destruct (getSnapshot (dataService this) (now w) (symbol r))
    as [snapshot|e] eqn:Hsnap;
    [|now rewrite (monitorPosition_feed_throws _ _ _ _ _ Hr Hs Hsnap)].
  destruct (truthy (snapshot_price snapshot)) eqn:Ht;
    [|now rewrite (monitorPosition_no_price _ _ _ _ _ Hr Hs Hsnap Ht)].
  destruct (snapshot_price snapshot) as [price|] eqn:Hp; [|discriminate].
  rewrite (monitorPosition_priced _ _ _ _ _ _ Hr Hs Hsnap Hp Ht).
  assert (Hclose : forall reason l result,
            price_requests
              (calls (snd (after_close
                             (closeManagedPosition this i reason (Some price)
                                (add_log l (priced i r price w))) result)))
            = (price_requests (calls w) ++ [symbol r])%list).
  { intros reason l result.
    destruct (triggered_close_ends this i reason w r price l result Hr)
      as (r' & _ & _ & Hcalls).
    now rewrite Hcalls. }
  destruct (Qle_bool price (stop_loss_price r)); [apply Hclose|].
  destruct (Qle_bool (take_profit_price r) price); [apply Hclose|].
  destruct (trailing_stop r); cbn [snd]; [|reflexivity].
  now rewrite updateTrailingStop_calls.
Qed.

Lemma after_turn_calls (this : PositionManagerService)
  (position : ManagedPosition) (w : World) :
  calls (after_turn this position w)
  = calls (snd (monitorPosition this (id position) w)).
Proof.
  unfold after_turn.
  now destruct (monitorPosition this (id position) w) as [[res|e] w1].
Qed.

Lemma turns_requests (this : PositionManagerService)
  (positions : list ManagedPosition) (w : World) :
  NoDup (map id positions) ->
  (forall q : ManagedPosition,
     In q positions ->
     find_row (id q) (db w) = Some q /\ is_active_or_monitoring q = true) ->
  price_requests (calls (snd (turns this positions w)))
  = (price_requests (calls w) ++ map symbol positions)%list.
Proof.
  revert w. induction positions as [|q rest IH]; intros w Hnd Hrows.
  - cbn. now rewrite app_nil_r.
  - cbn [map] in Hnd. inversion Hnd as [|? ? Hnot Hrest]; subst.
    cbn [turns snd map].
    destruct (Hrows q (or_introl eq_refl)) as [Hq Hopen].
    rewrite (IH (after_turn this q w) Hrest).
    + rewrite after_turn_calls, (monitorPosition_requests _ _ _ _ Hq Hopen).
      now rewrite <- app_assoc.
    + intros q' Hq'. destruct (Hrows q' (or_intror Hq')) as [Hfind Hopen'].
      split; [|exact Hopen'].
      rewrite after_turn_db, monitorPosition_frame; [exact Hfind|].
      intro E. apply Hnot. rewrite E. now apply in_map.
Qed.

(** X22. [getActiveManagedPositions] reads without writing and returns
    each row that is active or monitoring exactly once, newest first; and
    that is the order in which [monitorAllPositions] evaluates them: the
    price requests a cycle sends to the market-data provider are, in
    order, one for the symbol of each row fetched. *)
Theorem getActiveManagedPositions_order (this : PositionManagerService)
  (w : World) :
  NoDup (map id (db w)) ->
  exists rows : list ManagedPosition,
    getActiveManagedPositions w = (Ok rows, w) /\
    Permutation (filter is_active_or_monitoring (db w)) rows /\
    StronglySorted newer_or_same rows /\
    price_requests (calls (snd (monitorAllPositions this w)))
    = (price_requests (calls w) ++ map symbol rows)%list.
Proof.
  intro Hnd. eexists. split; [reflexivity|].
  split; [apply sort_desc_perm|].
  split; [apply sort_desc_sorted|].
  rewrite monitorAllPositions_turns. cbn [snd calls add_log].
  rewrite turns_requests; [reflexivity | |].
  - apply (Permutation_NoDup
             (l := map id (filter is_active_or_monitoring (db w)))).
    + apply Permutation_map, sort_desc_perm.
    + now apply NoDup_ids_filter.
  - intros q Hq.
    apply (Permutation_in _ (Permutation_sym (sort_desc_perm _))) in Hq.
    apply filter_In in Hq. destruct Hq as [Hq Hopen].
    split; [|exact Hopen].
    cbn [db add_log]. now apply find_row_NoDup.
Qed.

(** The cycle of scenario D asks for the ten prices in the order of the
    rows fetched, the one that throws included. *)
Lemma getActiveManagedPositions_order_witness :
  NoDup (map id (db (world_of ten_rows))) /\
  exists rows : list ManagedPosition,
    getActiveManagedPositions (world_of ten_rows)
    = (Ok rows, world_of ten_rows) /\
    map symbol rows
    = ["AAPL"; "MSFT"; "TSLA"; "AMZN"; "NVDA"; "META"; "DOWN"; "GOOG";
       "NFLX"; "ORCL"] /\
    price_requests
      (calls (snd (monitorAllPositions svc_one_down (world_of ten_rows))))
    = (price_requests (calls (world_of ten_rows)) ++ map symbol rows)%list.
Proof.
  split; [exact ten_rows_ids|].
  destruct (getActiveManagedPositions_order svc_one_down (world_of ten_rows)
              ten_rows_ids) as (rows & Hget & _ & _ & Hreq).
  exists rows. split; [exact Hget|]. split; [|exact Hreq].
  injection Hget as <-. reflexivity.
Defined.
